(** * Mini-SAILS network optimizer

    A shallow embedding of [utils.py] and [optimization.py]: the distance
    utility, the lane preprocessor, the model builder and the result
    extractor, followed by the properties of the formulation and of the
    extracted result.

    Numbers are Python floats, i.e. IEEE binary64, modelled by Rocq's
    primitive floats.  Node and product identifiers are strings, periods are
    integers.  A table is the list of its rows; a column the program treats
    as optional is recorded as present or absent for the whole table.

    Code that raises is written in the error monad [result].  Library code
    that the program calls but does not define (the [math] functions, the
    CBC solver, [pulp.value]) is gathered in the class [External], and every
    theorem holds for all its instances.

    Where the behaviour belongs to pandas or PuLP rather than to the
    program, the embedding follows these readings:
    - an inner merge keeps the order of the left table and gives one row per
      matching right row;
    - [.loc] on a label carried by several rows selects a Series; using it
      as a coefficient raises [TypeError], testing its truth raises
      [ValueError];
    - [set(shut_nodes)] is iterated in the order of first occurrence; the
      order of a Python set is not fixed, and no statement depends on it;
    - a row-wise [apply] on a table without rows gives an empty column;
    - a PuLP expression is kept as the program writes it, a list of
      coefficient-variable terms and a constant: terms on one variable are
      not merged, terms with a zero coefficient are kept, and PuLP's own
      rejection of a NaN or infinite coefficient or bound is not part of
      the model.  The statements about a formulation are therefore about
      the formulation a build returns, with its expressions as the program
      writes them. *)

From Stdlib Require Import List String Ascii ZArith Bool Lia.
From Stdlib Require Import Floats.
Import ListNotations.

Set Warnings "-inexact-float".

(** ** Python exceptions and the error monad *)

Module Py.

Inductive PyError : Type :=
| KeyError (key : string)
| TypeError
| ValueError
| OverflowError.

Inductive result (A : Type) : Type :=
| Ok (a : A)
| Err (e : PyError).

Arguments Ok {A} a.
Arguments Err {A} e.

Definition bind {A B : Type} (m : result A) (k : A -> result B) : result B :=
  match m with
  | Ok a => k a
  | Err e => Err e
  end.

Definition is_ok {A : Type} (m : result A) : bool :=
  match m with Ok _ => true | Err _ => false end.

(** A comprehension whose body may raise: elements are evaluated in order
    and the first exception aborts the whole comprehension. *)
Fixpoint mapM {A B : Type} (f : A -> result B) (l : list A) : result (list B) :=
  match l with
  | [] => Ok []
  | x :: xs =>
      match f x with
      | Err e => Err e
      | Ok y =>
          match mapM f xs with
          | Err e => Err e
          | Ok ys => Ok (y :: ys)
          end
      end
  end.

(** [x in l] for a list (or an index) [l]. *)
Definition mem {A : Type} (eqb : A -> A -> bool) (x : A) (l : list A) : bool :=
  existsb (eqb x) l.

(** Keys of a [dict] built by inserting [l] in order: a repeated key keeps
    the position of its first insertion.  [Series.unique()] keeps the same
    order. *)
Fixpoint unique {A : Type} (eqb : A -> A -> bool) (l : list A) : list A :=
  match l with
  | [] => []
  | x :: xs => x :: filter (fun y => negb (eqb x y)) (unique eqb xs)
  end.

(** [sorted] on integers. *)
Fixpoint insert_sorted (x : Z) (l : list Z) : list Z :=
  match l with
  | [] => [x]
  | y :: ys => if (x <=? y)%Z then x :: l else y :: insert_sorted x ys
  end.

Definition sorted (l : list Z) : list Z := fold_right insert_sorted [] l.

(** Truth value of a float: zero (of either sign) is false, everything
    else, NaN included, is true. *)
Definition truthy (x : float) : bool := negb (PrimFloat.eqb x 0%float).

Definition pair_eqb (a b : string * string) : bool :=
  String.eqb (fst a) (fst b) && String.eqb (snd a) (snd b).

End Py.

Export Py.

Declare Scope py_scope.
Delimit Scope py_scope with py.
Notation "x <- m ;; k" := (Py.bind m (fun x => k))
  (at level 61, m at next level, right associativity) : py_scope.
Notation "' p <- m ;; k" := (Py.bind m (fun p => k))
  (at level 61, p pattern, m at next level, right associativity) : py_scope.
Local Open Scope py_scope.

(** ** Library functions the program calls *)

Inductive Var : Type :=
| Open (d : string)
| F (i j p : string) (t : Z)
| Make (pl p : string) (t : Z)
| Inv (n p : string) (t : Z).

(** A linear expression as the source writes it: the coefficient-variable
    terms of the sum, in order, and a constant. *)
Record LpAffineExpression : Type := mkExpr
  { terms : list (float * Var);
    constant : float }.

Inductive LpSense : Type := LpConstraintLE | LpConstraintGE | LpConstraintEQ.

Record LpConstraint : Type := mkConstraint
  { lhs : LpAffineExpression;
    sense : LpSense;
    rhs : LpAffineExpression }.

(** [pulp.LpProblem('NetworkDesign', pulp.LpMinimize)]. *)
Record LpProblem : Type := mkProblem
  { objective : LpAffineExpression;
    constraints : list LpConstraint }.

(** [mdl.status] after a solve, and [pulp.LpStatus]. *)
Inductive StatusCode : Type :=
| StNotSolved | StOptimal | StInfeasible | StUnbounded | StUndefined.

Definition LpStatus (c : StatusCode) : string :=
  match c with
  | StNotSolved => "Not Solved"
  | StOptimal => "Optimal"
  | StInfeasible => "Infeasible"
  | StUnbounded => "Unbounded"
  | StUndefined => "Undefined"
  end.

(** [v.varValue] of every variable after a solve: [None] or a float. *)
Definition Solution : Type := Var -> option float.

Class External : Type :=
  { (** [math.sin], [math.cos], [math.asin]: they raise [ValueError]
        outside their domain. *)
    math_sin : float -> result float;
    math_cos : float -> result float;
    math_asin : float -> result float;
    (** [x ** y] on floats, the C library's [pow]: it raises
        [OverflowError] when the result is out of range. *)
    float_pow : float -> float -> result float;
    (** [mdl.solve(pulp.PULP_CBC_CMD(msg=False))]: an oracle giving a
        status and the variables' values. *)
    cbc_solve : LpProblem -> StatusCode * Solution;
    (** [pulp.value(expr)] under the solved values. *)
    pulp_value : LpAffineExpression -> Solution -> option float }.

(** ** utils.py *)

Module Utils.
Section Utils.
Context {ext : External}.

(** Inflate straight-line (great-circle) distance to approximate road
    mileage. *)
Definition ROAD_FACTOR : float := 1.3%float.

(** [math.radians]. *)
Definition radians (x : float) : float :=
  (x * (3.141592653589793 / 180))%float.

(** [math.sqrt]: [ValueError] on a negative argument. *)
Definition math_sqrt (x : float) : result float :=
  if (x <? 0)%float then Err ValueError else Ok (PrimFloat.sqrt x).

(** Great-circle distance in miles between two (lon, lat) points. *)
Definition haversine (lon1 lat1 lon2 lat2 : float) : result float :=
  let R := 3958.8%float in
  let lon1 := radians lon1 in
  let lat1 := radians lat1 in
  let lon2 := radians lon2 in
  let lat2 := radians lat2 in
  let dlon := (lon2 - lon1)%float in
  let dlat := (lat2 - lat1)%float in
  s1 <- math_sin (dlat / 2)%float ;;
  q1 <- float_pow s1 2%float ;;
  c1 <- math_cos lat1 ;;
  c2 <- math_cos lat2 ;;
  s2 <- math_sin (dlon / 2)%float ;;
  q2 <- float_pow s2 2%float ;;
  let a := (q1 + c1 * c2 * q2)%float in
  r <- math_sqrt a ;;
  h <- math_asin r ;;
  Ok (2 * R * h)%float.

End Utils.
End Utils.

(** ** optimization.py: the input tables *)

(** A row of the node table, indexed by [NodeID].  The three cost and
    capacity columns are optional: [Nodes] records which of them the table
    has, and a cell of an absent column is never read. *)
Record Node : Type := mkNode
  { NodeID : string;
    NodeType : string;
    Latitude : float;
    Longitude : float;
    FixedCost : float;
    VarCost_per_lb : float;
    Cap_Lbs_Per_Period : float }.

Record Nodes : Type := mkNodes
  { node_rows : list Node;
    has_FixedCost : bool;
    has_VarCost_per_lb : bool;
    has_Cap_Lbs_Per_Period : bool }.

Record Lane : Type := mkLane
  { FromNode : string;
    ToNode : string;
    Cost_per_lb_mi : float;
    DutyRate : float;
    CO2_per_lb_mi : float;
    TransitDays : float }.

Record LaneColumns : Type := mkLaneColumns
  { has_Cost_per_lb_mi : bool;
    has_DutyRate : bool;
    has_CO2_per_lb_mi : bool;
    has_TransitDays : bool }.

Record Lanes : Type := mkLanes
  { lane_rows : list Lane;
    lane_columns : LaneColumns }.

(** A lane after preprocessing: endpoint coordinates and road distance
    attached. *)
Record PreppedLane : Type := mkPreppedLane
  { lane : Lane;
    fr_lat : float;
    fr_lon : float;
    to_lat : float;
    to_lon : float;
    Dist_mi : float }.

Record PreppedLanes : Type := mkPreppedLanes
  { prepped_rows : list PreppedLane;
    prepped_columns : LaneColumns }.

(** A row of the product table, indexed by [ProductID]; [BOM_Component] is
    [None] for a NaN cell. *)
Record Product : Type := mkProduct
  { ProductID : string;
    BOM_Component : option string;
    InputLB_per_OutputLB : float }.

Record Products : Type := mkProducts
  { product_rows : list Product;
    has_BOM_Component : bool;
    has_InputLB_per_OutputLB : bool }.

Record DemandRow : Type := mkDemand
  { CustomerID : string;
    DemandProductID : string;
    Period : Z;
    DemandLbs : float }.

(** The variable dictionaries returned beside the model: each is given by
    its keys, the value at key [k] being the variable of that name. *)
Record VarDicts : Type := mkVarDicts
  { flow : list (string * string * string * Z);
    open : list string;
    inv : list (string * string * Z);
    make : list (string * string * Z) }.

Record FlowRecord : Type := mkFlowRecord
  { From : string;
    To : string;
    FlowProduct : string;
    FlowPeriod : Z;
    FlowLbs : float }.

(** The result of an optimal run. *)
Record Extracted : Type := mkExtracted
  { res_flow : list FlowRecord;
    res_open_dc : list string;
    res_objective : option float }.

(** What one call of [solve_and_extract] does: the formulations it hands
    to the solver, and what it returns or raises. *)
Record Run : Type := mkRun
  { solver_calls : list LpProblem;
    outcome : result (string * option Extracted) }.

Module Optimization.
Section Optimization.
Context {ext : External}.

Definition key3_eqb (a b : string * string * Z) : bool :=
  let '(n1, p1, t1) := a in
  let '(n2, p2, t2) := b in
  String.eqb n1 n2 && String.eqb p1 p2 && Z.eqb t1 t2.

Definition key4_eqb (a b : string * string * string * Z) : bool :=
  let '(i1, j1, p1, t1) := a in
  let '(i2, j2, p2, t2) := b in
  String.eqb i1 i2 && String.eqb j1 j2 && String.eqb p1 p2 && Z.eqb t1 t2.

(** [nodes.index.tolist()] and [nodes.query('Type=="..."').index.tolist()]. *)
Definition node_index (nodes : Nodes) : list string :=
  map NodeID (node_rows nodes).

Definition query_type (nodes : Nodes) (ty : string) : list string :=
  map NodeID (filter (fun r => String.eqb (NodeType r) ty) (node_rows nodes)).

(** [nodes.loc[n, col]] for a column the table has.  A label carried by
    several rows selects a Series, which raises where the program uses it:
    [on_series] is the exception of that use. *)
Definition nodes_loc (nodes : Nodes) (n : string) (col : Node -> float)
  (on_series : PyError) : result float :=
  match filter (fun r => String.eqb (NodeID r) n) (node_rows nodes) with
  | [] => Err (KeyError n)
  | [r] => Ok (col r)
  | _ => Err on_series
  end.

(** The rows of [nodes[['Latitude','Longitude']]] an inner merge on [key]
    matches. *)
Definition merge_coords (nodes : Nodes) (key : string) : list (float * float) :=
  map (fun r => (Latitude r, Longitude r))
      (filter (fun r => String.eqb (NodeID r) key) (node_rows nodes)).

Definition _prep_lanes (nodes : Nodes) (lanes : Lanes) : result PreppedLanes :=
  (* Merge coordinates for distance calc *)
  let m1 :=
    flat_map (fun l => map (fun c => (l, c)) (merge_coords nodes (FromNode l)))
             (lane_rows lanes) in
  let m2 :=
    flat_map (fun lc => map (fun c => (lc, c)) (merge_coords nodes (ToNode (fst lc))))
             m1 in
  rows <- mapM (fun r =>
            let '((l, (flat, flon)), (tlat, tlon)) := r in
            h <- Utils.haversine flon flat tlon tlat ;;
            Ok (mkPreppedLane l flat flon tlat tlon (h * Utils.ROAD_FACTOR)%float))
          m2 ;;
  Ok (mkPreppedLanes rows (lane_columns lanes)).

(** [lanes.index] after [set_index(['FromNode','ToNode'])]. *)
Definition lane_index (lanes : PreppedLanes) : list (string * string) :=
  map (fun r => (FromNode (lane r), ToNode (lane r))) (prepped_rows lanes).

Definition lane_rows_at (lanes : PreppedLanes) (k : string * string)
  : list PreppedLane :=
  filter (fun r => pair_eqb (FromNode (lane r), ToNode (lane r)) k)
         (prepped_rows lanes).

(** [lanes.loc[(i,j), col]] used as a coefficient: [KeyError] when the
    table lacks the column, [TypeError] when the key selects several rows. *)
Definition lanes_loc (lanes : PreppedLanes) (k : string * string)
  (name : string) (present : bool) (col : PreppedLane -> float) : result float :=
  if present then
    match lane_rows_at lanes k with
    | [] => Err (KeyError name)
    | [r] => Ok (col r)
    | _ => Err TypeError
    end
  else Err (KeyError name).

(** [lanes.loc[(i,j)].get(col, 0)]. *)
Definition lanes_get (lanes : PreppedLanes) (k : string * string)
  (present : bool) (col : PreppedLane -> float) : result float :=
  match lane_rows_at lanes k with
  | [] => Err (KeyError "lanes.loc")
  | [r] => Ok (if present then col r else 0%float)
  | _ => if present then Err TypeError else Ok 0%float
  end.

(** [d[k]] on a dictionary of variables. *)
Definition getitem {K : Type} (eqb : K -> K -> bool) (name : string)
  (keys : list K) (k : K) (v : Var) : result Var :=
  if mem eqb k keys then Ok v else Err (KeyError name).

(** Comprehensions over two and three nested [for] clauses. *)
Definition for2 {A B : Type} (la : list A) (lb : list B) : list (A * B) :=
  flat_map (fun a => map (fun b => (a, b)) lb) la.

Definition for3 {A B C : Type} (la : list A) (lb : list B) (lc : list C)
  : list (A * B * C) :=
  flat_map (fun a => flat_map (fun b => map (fun c => (a, b, c)) lc) lb) la.

Definition lpSum (ts : list (float * Var)) : LpAffineExpression :=
  mkExpr ts 0%float.

Definition num (c : float) : LpAffineExpression := mkExpr [] c.

Definition var (v : Var) : LpAffineExpression := mkExpr [(1%float, v)] 0%float.

Definition add (a b : LpAffineExpression) : LpAffineExpression :=
  mkExpr (terms a ++ terms b) (constant a + constant b)%float.

(** *** build_model: the data prepared at its start and the variables *)

Section Model.
Variables (nodes : Nodes) (demand : list DemandRow) (lanes : PreppedLanes)
  (products : Products) (service_days carbon_price : float)
  (shut_nodes : list string).

Definition N : list string := node_index nodes.
Definition SUP : list string := query_type nodes "Supplier".
Definition PLT : list string := query_type nodes "Plant".
Definition DC : list string := query_type nodes "DC".
Definition CST : list string := query_type nodes "Customer".
Definition P : list string := map ProductID (product_rows products).
Definition T : list Z := sorted (unique Z.eqb (map Period demand)).

(** Decision variables *)
Definition open_dc : list string := unique String.eqb DC.

Definition flow_keys : list (string * string * string * Z) :=
  unique key4_eqb
    (map (fun k => let '((i, j), p, t) := k in (i, j, p, t))
         (for3 (lane_index lanes) P T)).

Definition make_keys : list (string * string * Z) :=
  unique key3_eqb (for3 PLT P T).

Definition inv_keys : list (string * string * Z) :=
  unique key3_eqb (for3 (DC ++ PLT) P T).

Definition open_at (d : string) : result Var :=
  getitem String.eqb "Open" open_dc d (Open d).

Definition flow_at (i j p : string) (t : Z) : result Var :=
  getitem key4_eqb "F" flow_keys (i, j, p, t) (F i j p t).

Definition make_at (pl p : string) (t : Z) : result Var :=
  getitem key3_eqb "Make" make_keys (pl, p, t) (Make pl p t).

Definition inv_at (n p : string) (t : Z) : result Var :=
  getitem key3_eqb "Inv" inv_keys (n, p, t) (Inv n p t).

(** Cost components *)
Definition node_fixed (n : string) : result float :=
  if has_FixedCost nodes then nodes_loc nodes n FixedCost TypeError
  else Ok 0%float.

Definition node_var (n : string) : result float :=
  if has_VarCost_per_lb nodes then nodes_loc nodes n VarCost_per_lb TypeError
  else Ok 0%float.

Definition node_cap (n : string) : result (option float) :=
  if has_Cap_Lbs_Per_Period nodes then
    c <- nodes_loc nodes n Cap_Lbs_Per_Period ValueError ;; Ok (Some c)
  else Ok None.

(** Objective *)
Definition prod_cost : result (list (float * Var)) :=
  mapM (fun k => let '(pl, p, t) := k in
          v <- make_at pl p t ;;
          c <- node_var pl ;;
          Ok (c, v))
       (for3 PLT P T).

Definition wh_fixed : result (list (float * Var)) :=
  mapM (fun d =>
          v <- open_at d ;;
          c <- node_fixed d ;;
          Ok (c, v))
       DC.

Definition wh_hold : result (list (float * Var)) :=
  mapM (fun k => let '(n, p, t) := k in
          v <- inv_at n p t ;;
          c <- node_var n ;;
          Ok (c, v))
       (for3 (DC ++ PLT) P T).

Definition trans_cost : result (list (float * Var)) :=
  mapM (fun k => let '((i, j), p, t) := k in
          v <- flow_at i j p t ;;
          c <- lanes_loc lanes (i, j) "Cost_per_lb_mi"
                 (has_Cost_per_lb_mi (prepped_columns lanes))
                 (fun r => Cost_per_lb_mi (lane r)) ;;
          d <- lanes_loc lanes (i, j) "Dist_mi" true Dist_mi ;;
          Ok ((c * d)%float, v))
       (for3 (lane_index lanes) P T).

Definition duty_cost : result (list (float * Var)) :=
  mapM (fun k => let '((i, j), p, t) := k in
          v <- flow_at i j p t ;;
          r <- lanes_get lanes (i, j) (has_DutyRate (prepped_columns lanes))
                 (fun r => DutyRate (lane r)) ;;
          Ok (r, v))
       (for3 (lane_index lanes) P T).

Definition carbon : result (list (float * Var)) :=
  mapM (fun k => let '((i, j), p, t) := k in
          v <- flow_at i j p t ;;
          d <- lanes_loc lanes (i, j) "Dist_mi" true Dist_mi ;;
          e <- lanes_get lanes (i, j) (has_CO2_per_lb_mi (prepped_columns lanes))
                 (fun r => CO2_per_lb_mi (lane r)) ;;
          Ok ((d * e * carbon_price / 2204.62)%float, v))
       (for3 (lane_index lanes) P T).

Definition build_objective : result LpAffineExpression :=
  pc <- prod_cost ;;
  wf <- wh_fixed ;;
  wh <- wh_hold ;;
  tc <- trans_cost ;;
  du <- duty_cost ;;
  ca <- carbon ;;
  Ok (add (add (add (add (add (lpSum pc) (lpSum wf)) (lpSum wh)) (lpSum tc))
               (lpSum du)) (lpSum ca)).

(** [v == 0] *)
Definition fixed_to_zero (v : Var) : LpConstraint :=
  mkConstraint (var v) LpConstraintEQ (num 0%float).

(** Shutdown constraints *)
Definition touches (n : string) (k : string * string) : bool :=
  String.eqb (fst k) n || String.eqb (snd k) n.

Definition shutdown_node (n : string) : result (list LpConstraint) :=
  o <- (if mem String.eqb n DC
        then v <- open_at n ;; Ok [fixed_to_zero v]
        else Ok []) ;;
  fs <- mapM (fun k => let '((i, j), p, t) := k in
                v <- flow_at i j p t ;; Ok (fixed_to_zero v))
             (for3 (filter (touches n) (lane_index lanes)) P T) ;;
  Ok (o ++ fs).

Definition shutdown_constraints : result (list LpConstraint) :=
  cs <- mapM shutdown_node shut_nodes ;; Ok (List.concat cs).

(** [flow[i,n,p,t] for i in N if (i,n) in lanes.index] *)
Definition inbound (n : string) : list string :=
  filter (fun i => mem pair_eqb (i, n) (lane_index lanes)) N.

(** [flow[n,j,p,t] for j in N if (n,j) in lanes.index] *)
Definition outbound (n : string) : list string :=
  filter (fun j => mem pair_eqb (n, j) (lane_index lanes)) N.

(** Capacity *)
Definition capacity_node (n : string) : result (list LpConstraint) :=
  cap <- node_cap n ;;
  match cap with
  | Some c =>
      if truthy c then
        mapM (fun t =>
                ts <- mapM (fun ip => let '(i, p) := ip in
                              v <- flow_at i n p t ;; Ok (1%float, v))
                           (for2 (inbound n) P) ;;
                Ok (mkConstraint (lpSum ts) LpConstraintLE (num c)))
             T
      else Ok []
  | None => Ok []
  end.

Definition capacity_constraints : result (list LpConstraint) :=
  cs <- mapM capacity_node (PLT ++ DC) ;; Ok (List.concat cs).

(** Demand fulfilment *)
Definition demand_constraints : result (list LpConstraint) :=
  mapM (fun row =>
          let c := CustomerID row in
          let p := DemandProductID row in
          let t := Period row in
          let dem := DemandLbs row in
          inflow <- mapM (fun i => v <- flow_at i c p t ;; Ok (1%float, v))
                         (inbound c) ;;
          Ok (mkConstraint (lpSum inflow) LpConstraintGE (num dem)))
       demand.

(** Service time *)
Definition service_constraints : result (list LpConstraint) :=
  mapM (fun row =>
          let c := CustomerID row in
          let p := DemandProductID row in
          let t := Period row in
          let dem := DemandLbs row in
          ts <- mapM (fun i =>
                        v <- flow_at i c p t ;;
                        d <- lanes_loc lanes (i, c) "TransitDays"
                               (has_TransitDays (prepped_columns lanes))
                               (fun r => TransitDays (lane r)) ;;
                        Ok (d, v))
                     (inbound c) ;;
          Ok (mkConstraint (lpSum ts) LpConstraintLE
                           (num (dem * service_days)%float)))
       demand.

(** Mass balance at DCs & Plants *)
Definition enumerate {A : Type} (l : list A) : list (nat * A) :=
  combine (seq 0 (List.length l)) l.

Definition mass_balance (n p : string) (ti : nat) (t : Z) : result LpConstraint :=
  inflow <- mapM (fun i => v <- flow_at i n p t ;; Ok (1%float, v)) (inbound n) ;;
  outflow <- mapM (fun j => v <- flow_at n j p t ;; Ok (1%float, v)) (outbound n) ;;
  outflow <- (if mem String.eqb n PLT
              then v <- make_at n p t ;; Ok (outflow ++ [(1%float, v)])
              else Ok outflow) ;;
  inv_prev <- (if (0 <? ti)%nat
               then v <- inv_at n p (nth (ti - 1) T 0%Z) ;; Ok [(1%float, v)]
               else Ok []) ;;
  v <- inv_at n p t ;;
  Ok (mkConstraint (lpSum (inflow ++ inv_prev)) LpConstraintEQ
                   (lpSum (outflow ++ [(1%float, v)]))).

Definition mass_balance_constraints : result (list LpConstraint) :=
  mapM (fun k => let '(n, p, (ti, t)) := k in mass_balance n p ti t)
       (for3 (DC ++ PLT) P (enumerate T)).

(** BOM (simple one-level parent/child) *)
Definition bom_product (row : Product) : result (list LpConstraint) :=
  match BOM_Component row with
  | Some parent =>
      let comp := ProductID row in
      ratio <- (if has_InputLB_per_OutputLB products
                then Ok (InputLB_per_OutputLB row)
                else Err (KeyError "InputLB_per_OutputLB")) ;;
      mapM (fun k => let '(pl, t) := k in
              vp <- make_at pl parent t ;;
              vc <- make_at pl comp t ;;
              Ok (mkConstraint (lpSum [(ratio, vp)]) LpConstraintGE (var vc)))
           (for2 PLT T)
  | None => Ok []
  end.

Definition bom_constraints : result (list LpConstraint) :=
  if has_BOM_Component products then
    cs <- mapM bom_product (product_rows products) ;; Ok (List.concat cs)
  else Ok [].

Definition build_body : result (LpProblem * VarDicts) :=
  obj <- build_objective ;;
  c1 <- shutdown_constraints ;;
  c2 <- capacity_constraints ;;
  c3 <- demand_constraints ;;
  c4 <- service_constraints ;;
  c5 <- mass_balance_constraints ;;
  c6 <- bom_constraints ;;
  Ok (mkProblem obj (c1 ++ c2 ++ c3 ++ c4 ++ c5 ++ c6),
      mkVarDicts flow_keys open_dc inv_keys make_keys).

End Model.

(** [set(shut_nodes or [])]: the distinct elements, iterated in one fixed
    order. *)
Definition shut_set (shut_nodes : option (list string)) : list string :=
  unique String.eqb (match shut_nodes with Some l => l | None => [] end).

(** Return (PuLP model, variable dicts). *)
Definition build_model (nodes : Nodes) (demand : list DemandRow) (lanes : Lanes)
  (products : Products) (service_days safety_stock_pct carbon_price : float)
  (shut_nodes : option (list string)) : result (LpProblem * VarDicts) :=
  let shut_nodes := shut_set shut_nodes in
  (* Prep data *)
  lanes <- _prep_lanes nodes lanes ;;
  build_body nodes demand lanes products service_days carbon_price shut_nodes.

(** [v.varValue and v.varValue > 1e-6] *)
Definition flow_shown (x : option float) : bool :=
  match x with
  | Some v => truthy v && (1e-6 <? v)%float
  | None => false
  end.

(** [v.varValue], read where the test above has passed. *)
Definition value_of (x : option float) : float :=
  match x with Some v => v | None => 0%float end.

(** [v.varValue > 0.5]: comparing [None] with a float raises. *)
Definition open_shown (x : option float) : result bool :=
  match x with
  | Some v => Ok (0.5 <? v)%float
  | None => Err TypeError
  end.

Definition flow_table (sol : Solution) (keys : list (string * string * string * Z))
  : list FlowRecord :=
  flat_map (fun k => let '(i, j, p, t) := k in
              let v := sol (F i j p t) in
              if flow_shown v then [mkFlowRecord i j p t (value_of v)] else [])
           keys.

Definition open_table (sol : Solution) (keys : list string) : result (list string) :=
  bs <- mapM (fun d => b <- open_shown (sol (Open d)) ;; Ok (d, b)) keys ;;
  Ok (map fst (filter snd bs)).

Definition solve_and_extract (nodes : Nodes) (demand : list DemandRow)
  (lanes : Lanes) (products : Products)
  (service_days safety_stock_pct carbon_price : float)
  (shut_nodes : option (list string)) : Run :=
  match build_model nodes demand lanes products service_days safety_stock_pct
          carbon_price shut_nodes with
  | Err e => mkRun [] (Err e)
  | Ok (mdl, var) =>
      let '(code, sol) := cbc_solve mdl in
      let status := LpStatus code in
      if negb (String.eqb status "Optimal") then mkRun [mdl] (Ok (status, None))
      else
        (* Flow table *)
        let flow_df := flow_table sol (flow var) in
        (* Facility open *)
        mkRun [mdl]
          (open_dc <- open_table sol (open var) ;;
           Ok ("Optimal"%string,
               Some (mkExtracted flow_df open_dc (pulp_value (objective mdl) sol))))
  end.

End Optimization.
End Optimization.

Import Optimization.

(** ** A small scenario to run the embedding on

    One plant, one distribution center and one customer, one product and
    one period.  [demo_ext] stands in for the library: flat-earth
    trigonometry and a solver that reports [code] with every flow at [x],
    every [open] at [o] and no value for the other variables. *)

Definition demo_solution (x o : float) : Solution :=
  fun v =>
    match v with
    | F _ _ _ _ => Some x
    | Open _ => Some o
    | _ => None
    end.

Definition demo_ext (code : StatusCode) (x o : float) : External :=
  {| math_sin := fun a => Ok a;
     math_cos := fun _ => Ok 1%float;
     math_asin := fun a => Ok a;
     float_pow := fun a _ => Ok (a * a)%float;
     cbc_solve := fun _ => (code, demo_solution x o);
     pulp_value := fun _ _ => None |}.

Definition demo_node (id ty : string) (cap : float) : Node :=
  mkNode id ty 0 0 10 1 cap.

Definition demo_nodes (cap : float) : Nodes :=
  mkNodes [demo_node "P1" "Plant" 500; demo_node "D1" "DC" cap;
           demo_node "C1" "Customer" 0]
          true true true.

Definition all_columns : LaneColumns := mkLaneColumns true true true true.

Definition demo_lane (i j : string) : Lane := mkLane i j 1 0 0 2.

Definition demo_lanes : Lanes :=
  mkLanes [demo_lane "P1" "D1"; demo_lane "D1" "C1"] all_columns.

Definition demo_products : Products :=
  mkProducts [mkProduct "W" None 1] false false.

Definition demo_demand : list DemandRow := [mkDemand "C1" "W" 1 1000].

(** What [build_model] and [solve_and_extract] give on the scenario, read
    off an [Ok] result. *)
Definition demo_built (code : StatusCode) (x o cap : float)
  (shut : option (list string)) : result (LpProblem * VarDicts) :=
  @build_model (demo_ext code x o) (demo_nodes cap) demo_demand demo_lanes
    demo_products 7 0.10 0 shut.

Definition demo_run (code : StatusCode) (x o cap : float)
  (shut : option (list string)) : Run :=
  @solve_and_extract (demo_ext code x o) (demo_nodes cap) demo_demand demo_lanes
    demo_products 7 0.10 0 shut.

Definition empty_problem : LpProblem := mkProblem (lpSum []) [].

Definition built_model (r : result (LpProblem * VarDicts)) : LpProblem :=
  match r with Ok (mdl, _) => mdl | Err _ => empty_problem end.

Definition built_vars (r : result (LpProblem * VarDicts)) : VarDicts :=
  match r with Ok (_, var) => var | Err _ => mkVarDicts [] [] [] [] end.

Definition run_result (r : Run) : Extracted :=
  match outcome r with
  | Ok (_, Some res) => res
  | _ => mkExtracted [] [] None
  end.

(** ** Reading a formulation *)

Definition expr_vars (e : LpAffineExpression) : list Var := map snd (terms e).

Definition constraint_vars (c : LpConstraint) : list Var :=
  expr_vars (lhs c) ++ expr_vars (rhs c).

(** The meaning of a constraint under an assignment of the variables, over
    any carrier of numbers [R] with its own reading of the coefficients, of
    sum and product, and of the three senses. *)
Section Semantics.
Variables (R : Type) (of_float : float -> R) (radd rmul : R -> R -> R)
  (rel : LpSense -> R -> R -> Prop).

Definition eval (rho : Var -> R) (e : LpAffineExpression) : R :=
  fold_right (fun t acc => radd (rmul (of_float (fst t)) (rho (snd t))) acc)
             (of_float (constant e)) (terms e).

Definition holds (rho : Var -> R) (c : LpConstraint) : Prop :=
  rel (sense c) (eval rho (lhs c)) (eval rho (rhs c)).

End Semantics.

Arguments eval {R} of_float radd rmul rho e.
Arguments holds {R} of_float radd rmul rel rho c.

(** A solution honours the fixings of a formulation when every variable
    [v] for which the formulation has the row [1*v + 0 == 0] has a value,
    and that value is zero up to the tolerance the extractor itself uses. *)
Definition honours_fixings (sol : Solution) (mdl : LpProblem) : Prop :=
  forall v,
    In (mkConstraint (mkExpr [(1%float, v)] 0%float) LpConstraintEQ
          (mkExpr [] 0%float))
       (constraints mdl) ->
    exists x, sol v = Some x /\ (x <=? 1e-6)%float = true.

Definition lane_key (l : Lane) : string * string := (FromNode l, ToNode l).

(** Both endpoints of a raw lane are labels of the node table. *)
Definition known_lane (nodes : Nodes) (l : Lane) : bool :=
  mem String.eqb (FromNode l) (node_index nodes)
  && mem String.eqb (ToNode l) (node_index nodes).

(** The rows the two inner merges of [_prep_lanes] make of one raw lane:
    one per pair of a node row labelled with its origin and a node row
    labelled with its destination. *)
Definition merged_rows (nodes : Nodes) (l : Lane)
  : list (Lane * (float * float) * (float * float)) :=
  flat_map (fun lc => map (fun c => (lc, c)) (merge_coords nodes (ToNode (fst lc))))
           (map (fun c => (l, c)) (merge_coords nodes (FromNode l))).

(** The keys of the enriched table, when preprocessing returns one. *)
Definition prepped_index (r : result PreppedLanes)
  : option (list (string * string)) :=
  match r with
  | Ok pl => Some (lane_index pl)
  | Err _ => None
  end.

(** The scenario's lanes with one more lane, from a node the node table
    does not have. *)
Definition lanes_with_unknown_origin : Lanes :=
  mkLanes [demo_lane "P1" "D1"; demo_lane "X" "C1"; demo_lane "D1" "C1"]
          all_columns.

(** The scenario's lanes with the lane P1 -> D1 given twice. *)
Definition lanes_with_duplicate : Lanes :=
  mkLanes [demo_lane "P1" "D1"; demo_lane "D1" "C1"; demo_lane "P1" "D1"]
          all_columns.

Definition is_open (v : Var) : bool :=
  match v with Open _ => true | _ => false end.

(** No [open] variable among the variables of a constraint. *)
Definition open_free (c : LpConstraint) : Prop :=
  Forall (fun v => is_open v = false) (constraint_vars c).

(** The mass-balance law as the specification words it, for node [n],
    product [p] and the period at position [ti]: inbound flow plus the
    previous period's inventory (nothing at the first period) equals
    outbound flow, plus production at a plant, plus ending inventory. *)
Definition mass_balance_spec (nodes : Nodes) (demand : list DemandRow)
  (lanes : PreppedLanes) (n p : string) (ti : nat) : LpConstraint :=
  let t := nth ti (T demand) 0%Z in
  mkConstraint
    (lpSum (map (fun i => (1%float, F i n p t)) (inbound nodes lanes n)
            ++ (if Nat.eqb ti 0 then []
                else [(1%float, Inv n p (nth (ti - 1) (T demand) 0%Z))])))
    LpConstraintEQ
    (lpSum ((map (fun j => (1%float, F n j p t)) (outbound nodes lanes n)
             ++ (if mem String.eqb n (PLT nodes)
                 then [(1%float, Make n p t)] else []))
            ++ [(1%float, Inv n p t)])).

(** The shutdown constraints of one forced-closed node [n]: its [open]
    variable, when it is a DC, and the flow on every lane touching it. *)
Definition shutdown_spec (nodes : Nodes) (demand : list DemandRow)
  (lanes : PreppedLanes) (products : Products) (n : string) : list LpConstraint :=
  (if mem String.eqb n (DC nodes) then [fixed_to_zero (Open n)] else [])
  ++ map (fun k => let '((i, j), p, t) := k in fixed_to_zero (F i j p t))
         (for3 (filter (touches n) (lane_index lanes)) (P products) (T demand)).

Definition prepped_lanes (r : result PreppedLanes) : PreppedLanes :=
  match r with
  | Ok pl => pl
  | Err _ => mkPreppedLanes [] (mkLaneColumns false false false false)
  end.

(** The scenario's enriched lane table. *)
Definition demo_prepped : PreppedLanes :=
  prepped_lanes (@_prep_lanes (demo_ext StOptimal 0 0) (demo_nodes 0) demo_lanes).

(** The [<=] constraints of a formulation. *)
Definition le_constraints (mdl : LpProblem) : list LpConstraint :=
  filter (fun c => match sense c with LpConstraintLE => true | _ => false end)
         (constraints mdl).

(** The scenario's demand with one more record, for a customer the node
    table does not have. *)
Definition demand_with_unknown_customer : list DemandRow :=
  demo_demand ++ [mkDemand "Z" "W" 1 50].

(** The scenario's lanes in a table without the column Cost_per_lb_mi. *)
Definition lanes_without_cost : Lanes :=
  mkLanes (lane_rows demo_lanes) (mkLaneColumns false true true true).

(** A variable is declared by the dictionaries returned with the model
    when its key is a key of the dictionary of its kind. *)
Definition declared (var : VarDicts) (v : Var) : Prop :=
  match v with
  | Open d => In d (open var)
  | F i j p t => In (i, j, p, t) (flow var)
  | Make pl p t => In (pl, p, t) (make var)
  | Inv n p t => In (n, p, t) (inv var)
  end.

(** The constraints of the shape [v == 0]: an equality with no term on
    its right-hand side. *)
Definition is_fixing (c : LpConstraint) : bool :=
  match sense c, terms (rhs c) with
  | LpConstraintEQ, [] => true
  | _, _ => false
  end.

Definition record_key (r : FlowRecord) : string * string * string * Z :=
  (From r, To r, FlowProduct r, FlowPeriod r).

(** ** app.py: the Optimize button

    What the page shows is recorded as the list of Streamlit calls made;
    the formatting of the cost in the success message is left out, the
    message is given by the number it prints. *)

Inductive Widget : Type :=
| StError (message : string)
| StSuccess (optimal_cost : float)
| StSubheader (title : string)
| StWrite (open_dc : list string)
| StDataframe (rows : list FlowRecord).

(** The body of [if st.button('Optimize'):], with the tables already read:
    the formulations handed to the solver, and the widgets shown or the
    exception raised.  Formatting a missing objective raises TypeError. *)
Definition on_optimize {ext : External} (nodes : Nodes) (demand : list DemandRow)
  (lanes : Lanes) (products : Products) (svc_days carbon : float)
  : list LpProblem * result (list Widget) :=
  let run := solve_and_extract nodes demand lanes products svc_days 0.10 carbon None in
  (solver_calls run,
   match outcome run with
   | Err e => Err e
   | Ok (status, res) =>
       if negb (String.eqb status "Optimal") then
         Ok [StError ("Solver ended with status: " ++ status)%string]
       else
         match res with
         | Some r =>
             match res_objective r with
             | Some cost =>
                 Ok [StSuccess cost;
                     StSubheader "Open DCs"; StWrite (res_open_dc r);
                     StSubheader "Material flows"; StDataframe (res_flow r)]
             | None => Err TypeError
             end
         | None => Err TypeError
         end
   end).

(** The scenario's library with an objective value to report. *)
Definition demo_ext_with_cost (x o cost : float) : External :=
  {| math_sin := fun a => Ok a;
     math_cos := fun _ => Ok 1%float;
     math_asin := fun a => Ok a;
     float_pow := fun a _ => Ok (a * a)%float;
     cbc_solve := fun _ => (StOptimal, demo_solution x o);
     pulp_value := fun _ _ => Some cost |}.

(** Variants of the scenario: a node table without the optional columns,
    a product table with a bill of materials (K is made from W), a library
    whose solver leaves the [open] variables without a value, and the first
    row of the enriched lane table. *)
Definition demo_nodes_plain : Nodes :=
  mkNodes (node_rows (demo_nodes 0)) false false false.

Definition demo_products_bom : Products :=
  mkProducts [mkProduct "W" None 1; mkProduct "K" (Some "W"%string) 2] true true.

Definition demo_ext_no_open (x : float) : External :=
  {| math_sin := fun a => Ok a;
     math_cos := fun _ => Ok 1%float;
     math_asin := fun a => Ok a;
     float_pow := fun a _ => Ok (a * a)%float;
     cbc_solve := fun _ => (StOptimal,
                            fun v => match v with F _ _ _ _ => Some x | _ => None end);
     pulp_value := fun _ _ => None |}.

Definition demo_first_row : PreppedLane :=
  hd (mkPreppedLane (demo_lane "" "") 0 0 0 0 0) (prepped_rows demo_prepped).

(** A second scenario: two distribution centers between the plant and the
    customer, and a library whose solver routes the 1000 lb of demand
    through D2, leaving D1 closed and every flow on a lane at D1 at zero. *)
Definition two_dc_nodes : Nodes :=
  mkNodes [demo_node "P1" "Plant" 5000; demo_node "D1" "DC" 5000;
           demo_node "D2" "DC" 5000; demo_node "C1" "Customer" 0]
          true true true.

Definition two_dc_lanes : Lanes :=
  mkLanes [demo_lane "P1" "D1"; demo_lane "D1" "C1";
           demo_lane "P1" "D2"; demo_lane "D2" "C1"] all_columns.

Definition two_dc_solution : Solution :=
  fun v =>
    match v with
    | F i j _ _ =>
        if String.eqb i "D1" || String.eqb j "D1" then Some 0%float
        else Some 1000%float
    | Open d => if String.eqb d "D1" then Some 0%float else Some 1%float
    | Make _ _ _ => Some 1000%float
    | Inv _ _ _ => Some 0%float
    end.

Definition two_dc_ext : External :=
  {| math_sin := fun a => Ok a;
     math_cos := fun _ => Ok 1%float;
     math_asin := fun a => Ok a;
     float_pow := fun a _ => Ok (a * a)%float;
     cbc_solve := fun _ => (StOptimal, two_dc_solution);
     pulp_value := fun _ _ => Some 10%float |}.

Definition two_dc_built : result (LpProblem * VarDicts) :=
  @build_model two_dc_ext two_dc_nodes demo_demand two_dc_lanes demo_products
    7 0.10 0 (Some ["D1"%string]).

Definition two_dc_run : Run :=
  @solve_and_extract two_dc_ext two_dc_nodes demo_demand two_dc_lanes
    demo_products 7 0.10 0 (Some ["D1"%string]).

Definition two_dc_prepped : PreppedLanes :=
  prepped_lanes (@_prep_lanes two_dc_ext two_dc_nodes two_dc_lanes).

(** ** Lemmas on the error monad and on lists *)

Section MonadLemmas.
Context {A B : Type}.

Lemma bind_ok (m : result A) (k : A -> result B) (b : B) :
  Py.bind m k = Ok b -> exists a, m = Ok a /\ k a = Ok b.
Proof.
  destruct m as [a|e]; simpl; intros H; [eauto | discriminate].
Qed.

Lemma mapM_ok_in (f : A -> result B) (l : list A) (r : list B) :
  mapM f l = Ok r -> forall y, In y r -> exists x, In x l /\ f x = Ok y.
Proof.
  revert r; induction l as [|x xs IH]; simpl; intros r H y Hy.
  - injection H as <-; destruct Hy.
  - destruct (f x) as [y0|] eqn:Ef; [|discriminate].
    destruct (mapM f xs) as [ys|] eqn:Em; [|discriminate].
    injection H as <-. destruct Hy as [<-|Hy].
    + exists x; auto.
    + destruct (IH ys eq_refl y Hy) as (x' & Hx & Hf); eauto.
Qed.

Lemma mapM_ok_all (f : A -> result B) (l : list A) (r : list B) :
  mapM f l = Ok r -> forall x, In x l -> exists y, f x = Ok y /\ In y r.
Proof.
  revert r; induction l as [|x xs IH]; simpl; intros r H x' Hx.
  - destruct Hx.
  - destruct (f x) as [y0|] eqn:Ef; [|discriminate].
    destruct (mapM f xs) as [ys|] eqn:Em; [|discriminate].
    injection H as <-. destruct Hx as [<-|Hx].
    + exists y0; simpl; auto.
    + destruct (IH ys eq_refl x' Hx) as (y & Hf & Hy); exists y; simpl; auto.
Qed.

Lemma mapM_err_in (f : A -> result B) (l : list A) (x : A) (e : PyError) :
  In x l -> f x = Err e -> exists e', mapM f l = Err e'.
Proof.
  induction l as [|a xs IH]; simpl; intros Hx Hf; [destruct Hx|].
  destruct (f a) as [y|e0] eqn:Ef; [|eauto].
  destruct Hx as [->|Hx]; [congruence|].
  destruct (IH Hx Hf) as (e' & ->); eauto.
Qed.

Lemma mapM_total (f : A -> result B) (g : A -> B) (l : list A) :
  (forall x, In x l -> f x = Ok (g x)) -> mapM f l = Ok (map g l).
Proof.
  induction l as [|a xs IH]; simpl; intros H; [reflexivity|].
  rewrite (H a (or_introl eq_refl)), IH; auto.
Qed.

End MonadLemmas.

Section MemLemmas.
Context {A : Type} (eqb : A -> A -> bool).
Hypothesis eqb_eq : forall x y, eqb x y = true <-> x = y.

Lemma mem_In (x : A) (l : list A) : mem eqb x l = true <-> In x l.
Proof.
  unfold mem; rewrite existsb_exists; split.
  - intros (y & Hy & E); apply eqb_eq in E; subst; assumption.
  - intros H; exists x; split; [assumption | apply eqb_eq; reflexivity].
Qed.

Lemma unique_In (x : A) (l : list A) : In x (unique eqb l) <-> In x l.
Proof.
  induction l as [|a xs IH]; simpl; [tauto|].
  rewrite filter_In, IH. split.
  - intros [->|[H _]]; auto.
  - intros [->|H]; [auto|].
    destruct (eqb a x) eqn:E; [apply eqb_eq in E; auto | right; auto].
Qed.


End MemLemmas.

Lemma pair_eqb_eq (a b : string * string) : pair_eqb a b = true <-> a = b.
Proof.
  destruct a as [a1 a2], b as [b1 b2]; unfold pair_eqb; simpl.
  rewrite andb_true_iff, !String.eqb_eq; split.
  - intros [-> ->]; reflexivity.
  - intros E; injection E; auto.
Qed.

Lemma key3_eqb_eq (a b : string * string * Z) : key3_eqb a b = true <-> a = b.
Proof.
  destruct a as [[a1 a2] a3], b as [[b1 b2] b3]; unfold key3_eqb.
  rewrite !andb_true_iff, !String.eqb_eq, Z.eqb_eq; split.
  - intros [[-> ->] ->]; reflexivity.
  - intros E; injection E; auto.
Qed.

Lemma key4_eqb_eq (a b : string * string * string * Z) :
  key4_eqb a b = true <-> a = b.
Proof.
  destruct a as [[[a1 a2] a3] a4], b as [[[b1 b2] b3] b4]; unfold key4_eqb.
  rewrite !andb_true_iff, !String.eqb_eq, Z.eqb_eq; split.
  - intros [[[-> ->] ->] ->]; reflexivity.
  - intros E; injection E; auto.
Qed.


Lemma in_for3 {A B C : Type} (la : list A) (lb : list B) (lc : list C)
  (a : A) (b : B) (c : C) :
  In (a, b, c) (for3 la lb lc) <-> In a la /\ In b lb /\ In c lc.
Proof.
  unfold for3; rewrite in_flat_map; split.
  - intros (x & Hx & H); apply in_flat_map in H as (y & Hy & H).
    apply in_map_iff in H as (z & E & Hz). injection E as -> -> ->; auto.
  - intros (Ha & Hb & Hc); exists a; split; [assumption|].
    apply in_flat_map; exists b; split; [assumption|].
    apply in_map_iff; eauto.
Qed.

(** ** Lemmas on float comparisons *)

Lemma SFcompare_antisym (x y : spec_float) :
  SFcompare y x = option_map CompOpp (SFcompare x y).
Proof.
  destruct x as [s1|s1| |s1 m1 e1], y as [s2|s2| |s2 m2 e2]; simpl;
    try reflexivity;
    try (destruct s1; reflexivity); try (destruct s2; reflexivity);
    try (destruct s1, s2; reflexivity).
  destruct s1, s2; simpl; try reflexivity;
    rewrite (Z.compare_antisym e2 e1);
    destruct (e2 ?= e1)%Z; simpl; try reflexivity;
    change PosDef.Pos.compare_cont with Pos.compare_cont;
    rewrite (Pos.compare_cont_antisym m1 m2 Eq); reflexivity.
Qed.

Lemma threshold_repr :
  Prim2SF 1e-6 = S754_finite false 4722366482869645%positive (-72)%Z.
Proof. vm_compute; reflexivity. Qed.

Lemma half_repr :
  Prim2SF 0.5 = S754_finite false 4503599627370496%positive (-53)%Z.
Proof. vm_compute; reflexivity. Qed.

Lemma zero_repr : Prim2SF 0 = S754_zero false.
Proof. vm_compute; reflexivity. Qed.

(** A value above the threshold is not zero: the first half of the test
    [v.varValue and v.varValue > 1e-6] follows from the second. *)
Lemma gt_threshold_truthy (x : float) :
  (1e-6 <? x)%float = true -> truthy x = true.
Proof.
  unfold truthy. rewrite ltb_spec, eqb_spec. unfold SFltb, SFeqb.
  rewrite threshold_repr, zero_repr.
  destruct (Prim2SF x) as [s|s| |s m e]; cbn [SFcompare];
    try discriminate; try reflexivity; intros _; destruct s; reflexivity.
Qed.

Lemma le_threshold_not_gt (x : float) :
  (x <=? 1e-6)%float = true -> (1e-6 <? x)%float = false.
Proof.
  rewrite ltb_spec, leb_spec. unfold SFltb, SFleb.
  rewrite (SFcompare_antisym (Prim2SF x) (Prim2SF 1e-6)).
  destruct (SFcompare (Prim2SF x) (Prim2SF 1e-6)) as [[]|];
    cbn [option_map CompOpp]; intros; congruence.
Qed.

Lemma le_threshold_not_half (x : float) :
  (x <=? 1e-6)%float = true -> (0.5 <? x)%float = false.
Proof.
  rewrite ltb_spec, leb_spec. unfold SFltb, SFleb.
  rewrite threshold_repr, half_repr.
  destruct (Prim2SF x) as [s|s| |s m e]; cbn [SFcompare];
    try discriminate; try reflexivity.
  - destruct s; congruence.
  - destruct s; [reflexivity|].
    destruct (Z.compare_spec e (-72)); destruct (Z.compare_spec (-53) e);
      try lia; try reflexivity; try discriminate.
Qed.

(** ** The result extractor *)

Section Extraction.
Context {ext : External}.

Lemma flow_shown_iff (v : option float) :
  flow_shown v = true <-> exists x, v = Some x /\ (1e-6 <? x)%float = true.
Proof.
  destruct v as [x|]; simpl; split.
  - intros H; apply andb_true_iff in H as [_ H]; eauto.
  - intros (y & E & H); injection E as ->.
    rewrite H, (gt_threshold_truthy _ H); reflexivity.
  - discriminate.
  - intros (y & E & _); discriminate.
Qed.

Lemma flow_table_In (sol : Solution) (keys : list (string * string * string * Z))
  (i j p : string) (t : Z) (x : float) :
  In (mkFlowRecord i j p t x) (flow_table sol keys) <->
  In (i, j, p, t) keys /\ sol (F i j p t) = Some x /\ (1e-6 <? x)%float = true.
Proof.
  unfold flow_table; rewrite in_flat_map; split.
  - intros ([[[i' j'] p'] t'] & Hk & H).
    destruct (flow_shown (sol (F i' j' p' t'))) eqn:Es; [|destruct H].
    destruct H as [E|[]]. injection E as -> -> -> -> Ex.
    apply flow_shown_iff in Es as (y & Ey & Hy).
    rewrite Ey in Ex; simpl in Ex; subst y. auto.
  - intros (Hk & Ev & Hx). exists (i, j, p, t); split; [assumption|].
    assert (Es : flow_shown (sol (F i j p t)) = true)
      by (apply flow_shown_iff; eauto).
    rewrite Es, Ev; simpl; auto.
Qed.

(** What an optimal run returns, in terms of the formulation built. *)
Lemma solve_and_extract_optimal nodes demand lanes products sd ss cp shut
  mdl var status res :
  build_model nodes demand lanes products sd ss cp shut = Ok (mdl, var) ->
  outcome (solve_and_extract nodes demand lanes products sd ss cp shut)
  = Ok (status, Some res) ->
  LpStatus (fst (cbc_solve mdl)) = "Optimal"%string /\
  res_flow res = flow_table (snd (cbc_solve mdl)) (flow var) /\
  open_table (snd (cbc_solve mdl)) (open var) = Ok (res_open_dc res).
Proof.
  intros Hb. unfold solve_and_extract. rewrite Hb.
  destruct (cbc_solve mdl) as [code sol]; simpl.
  destruct (String.eqb (LpStatus code) "Optimal") eqn:Es; simpl.
  - intros H. apply bind_ok in H as (od & Ho & H). injection H as _ <-.
    apply String.eqb_eq in Es. simpl. auto.
  - discriminate.
Qed.

(** C8.  In the result of an optimal run, a flow record (From, To, Product,
    Period, FlowLbs) appears exactly when the flow variable of that key has
    a solved value strictly above 1e-6; a variable whose value is at most
    1e-6, or that has no value, leaves no record. *)
Theorem flow_record_iff_above_threshold nodes demand lanes products sd ss cp
  shut mdl var status res :
  build_model nodes demand lanes products sd ss cp shut = Ok (mdl, var) ->
  outcome (solve_and_extract nodes demand lanes products sd ss cp shut)
  = Ok (status, Some res) ->
  forall i j p t x,
    In (mkFlowRecord i j p t x) (res_flow res) <->
    In (i, j, p, t) (flow var) /\
    snd (cbc_solve mdl) (F i j p t) = Some x /\
    (1e-6 <? x)%float = true.
Proof.
  intros Hb Hr i j p t x.
  destruct (solve_and_extract_optimal _ _ _ _ _ _ _ _ _ _ _ _ Hb Hr) as (_ & -> & _).
  apply flow_table_In.
Qed.

(** C9.  When the solver's status is anything but Optimal, the run returns
    the status string with no result object: no flow table, open-DC list or
    objective value is produced. *)
Theorem non_optimal_returns_status_only nodes demand lanes products sd ss cp
  shut mdl var :
  build_model nodes demand lanes products sd ss cp shut = Ok (mdl, var) ->
  LpStatus (fst (cbc_solve mdl)) <> "Optimal"%string ->
  solve_and_extract nodes demand lanes products sd ss cp shut
  = mkRun [mdl] (Ok (LpStatus (fst (cbc_solve mdl)), None)).
Proof.
  intros Hb Hs. unfold solve_and_extract. rewrite Hb.
  destruct (cbc_solve mdl) as [code sol]; simpl in *.
  apply String.eqb_neq in Hs. rewrite Hs. reflexivity.
Qed.

(** C10.  The safety-stock fraction has no effect: two values of
    [safety_stock_pct] with otherwise identical inputs give the same
    formulation and variables (or the same exception), and the same run. *)
Theorem safety_stock_pct_ignored nodes demand lanes products sd cp shut
  (s1 s2 : float) :
  build_model nodes demand lanes products sd s1 cp shut
  = build_model nodes demand lanes products sd s2 cp shut /\
  solve_and_extract nodes demand lanes products sd s1 cp shut
  = solve_and_extract nodes demand lanes products sd s2 cp shut.
Proof. split; reflexivity. Qed.

End Extraction.

Lemma flow_record_above_threshold_witness :
  In (mkFlowRecord "D1" "C1" "W" 1 5)
     (res_flow (run_result (demo_run StOptimal 5 0 0 None))) <->
  In ("D1"%string, "C1"%string, "W"%string, 1%Z)
     (flow (built_vars (demo_built StOptimal 5 0 0 None))) /\
  snd (@cbc_solve (demo_ext StOptimal 5 0)
         (built_model (demo_built StOptimal 5 0 0 None)))
      (F "D1" "C1" "W" 1) = Some 5%float /\
  (1e-6 <? 5)%float = true.
Proof.
  apply (@flow_record_iff_above_threshold (demo_ext StOptimal 5 0)
           (demo_nodes 0) demo_demand demo_lanes demo_products 7 0.10 0 None
           (built_model (demo_built StOptimal 5 0 0 None))
           (built_vars (demo_built StOptimal 5 0 0 None))
           "Optimal" (run_result (demo_run StOptimal 5 0 0 None)));
    vm_compute; reflexivity.
Defined.

Lemma non_optimal_witness :
  demo_run StInfeasible 5 0 0 None
  = mkRun [built_model (demo_built StInfeasible 5 0 0 None)]
          (Ok ("Infeasible"%string, None)).
Proof.
  apply (@non_optimal_returns_status_only (demo_ext StInfeasible 5 0)
           (demo_nodes 0) demo_demand demo_lanes demo_products 7 0.10 0 None
           (built_model (demo_built StInfeasible 5 0 0 None))
           (built_vars (demo_built StInfeasible 5 0 0 None))).
  - vm_compute; reflexivity.
  - vm_compute; discriminate.
Defined.

(** ** The lane preprocessor *)

Section PrepLanes.
Context {ext : External}.

Lemma flat_map_flat_map {A B C : Type} (f : A -> list B) (g : B -> list C)
  (l : list A) :
  flat_map g (flat_map f l) = flat_map (fun x => flat_map g (f x)) l.
Proof.
  induction l as [|a xs IH]; simpl; [reflexivity|].
  rewrite flat_map_app, IH; reflexivity.
Qed.

Lemma flat_map_filter_nil {A B : Type} (keep : A -> bool) (g : A -> list B)
  (l : list A) :
  (forall x, In x l -> keep x = false -> g x = []) ->
  flat_map g (filter keep l) = flat_map g l.
Proof.
  induction l as [|a xs IH]; simpl; intros H; [reflexivity|].
  destruct (keep a) eqn:E; simpl.
  - rewrite IH; auto.
  - rewrite (H a (or_introl eq_refl) E), IH; auto.
Qed.

Lemma mapM_ok_map {A B C : Type} (f : A -> result B) (g : A -> C) (h : B -> C)
  (l : list A) (r : list B) :
  (forall x y, In x l -> f x = Ok y -> h y = g x) ->
  mapM f l = Ok r -> map h r = map g l.
Proof.
  revert r; induction l as [|a xs IH]; simpl; intros r H E.
  - injection E as <-; reflexivity.
  - destruct (f a) as [y|] eqn:Ef; [|discriminate].
    destruct (mapM f xs) as [ys|] eqn:Em; [|discriminate].
    injection E as <-; simpl. rewrite (H a y), (IH ys); auto.
Qed.

Lemma merge_coords_nil (nodes : Nodes) (k : string) :
  mem String.eqb k (node_index nodes) = false -> merge_coords nodes k = [].
Proof.
  unfold merge_coords, node_index, mem.
  induction (node_rows nodes) as [|r rs IH]; simpl; [reflexivity|].
  rewrite String.eqb_sym.
  destruct (String.eqb (NodeID r) k); simpl; [discriminate | exact IH].
Qed.

Lemma merge_coords_in (nodes : Nodes) (k : string) (c : float * float) :
  In c (merge_coords nodes k) -> In k (node_index nodes).
Proof.
  unfold merge_coords, node_index. rewrite !in_map_iff.
  intros (r & _ & Hr). apply filter_In in Hr as [Hr E].
  apply String.eqb_eq in E. eauto.
Qed.

Lemma merge_coords_single (nodes : Nodes) (k : string) :
  NoDup (node_index nodes) -> In k (node_index nodes) ->
  exists c, merge_coords nodes k = [c].
Proof.
  unfold merge_coords, node_index.
  induction (node_rows nodes) as [|r rs IH]; simpl; intros Hn Hk; [destruct Hk|].
  apply NoDup_cons_iff in Hn as [Hr Hn].
  destruct (String.eqb (NodeID r) k) eqn:E.
  - apply String.eqb_eq in E; subst k.
    assert (En : filter (fun r0 => String.eqb (NodeID r0) (NodeID r)) rs = []).
    { clear -Hr. induction rs as [|a rs IH]; simpl in *; [reflexivity|].
      destruct (String.eqb (NodeID a) (NodeID r)) eqn:E.
      - apply String.eqb_eq in E. tauto.
      - apply IH; tauto. }
    rewrite En; simpl; eauto.
  - destruct Hk as [Hk|Hk]; [apply String.eqb_neq in E; contradiction|].
    apply IH; assumption.
Qed.

Lemma merged_rows_unknown (nodes : Nodes) (l : Lane) :
  known_lane nodes l = false -> merged_rows nodes l = [].
Proof.
  unfold known_lane, merged_rows; intros H.
  apply andb_false_iff in H as [H|H].
  - rewrite (merge_coords_nil _ _ H); reflexivity.
  - induction (merge_coords nodes (FromNode l)) as [|c cs IH]; simpl;
      [reflexivity|].
    rewrite (merge_coords_nil _ _ H), IH; reflexivity.
Qed.

Lemma merge_coords_known (nodes : Nodes) (k : string) :
  In k (node_index nodes) -> merge_coords nodes k <> [].
Proof.
  unfold merge_coords, node_index. intros H E.
  apply in_map_iff in H as (r & Er & Hr).
  assert (I : In (Latitude r, Longitude r)
                 (map (fun r => (Latitude r, Longitude r))
                      (filter (fun r => String.eqb (NodeID r) k) (node_rows nodes)))).
  { apply (in_map (fun r => (Latitude r, Longitude r))).
    apply filter_In; split; [assumption|].
    apply String.eqb_eq; assumption. }
  rewrite E in I. destruct I.
Qed.

Lemma merged_rows_known (nodes : Nodes) (l : Lane) :
  known_lane nodes l = true -> merged_rows nodes l <> [].
Proof.
  unfold known_lane, merged_rows; intros H.
  apply andb_true_iff in H as [H1 H2].
  apply (mem_In _ String.eqb_eq) in H1, H2.
  apply merge_coords_known in H1, H2.
  destruct (merge_coords nodes (FromNode l)) as [|c1 cs1]; [congruence|].
  simpl. destruct (merge_coords nodes (ToNode l)) as [|c2 cs2]; [congruence|].
  simpl. discriminate.
Qed.

Lemma merged_rows_lane (nodes : Nodes) (l : Lane) r :
  In r (merged_rows nodes l) ->
  fst (fst r) = l /\ known_lane nodes l = true.
Proof.
  unfold merged_rows; intros H.
  apply in_flat_map in H as ([l' c1] & H1 & H2).
  apply in_map_iff in H1 as (c & E & Hc). injection E as <- <-.
  apply in_map_iff in H2 as (c2 & <- & Hc2). simpl in *.
  split; [reflexivity|]. unfold known_lane.
  apply merge_coords_in in Hc, Hc2.
  apply andb_true_iff; split; apply (mem_In _ String.eqb_eq); assumption.
Qed.

Lemma merged_rows_single (nodes : Nodes) (l : Lane) :
  NoDup (node_index nodes) -> known_lane nodes l = true ->
  exists c1 c2, merged_rows nodes l = [((l, c1), c2)].
Proof.
  unfold known_lane, merged_rows; intros Hn H.
  apply andb_true_iff in H as [H1 H2].
  apply (mem_In _ String.eqb_eq) in H1, H2.
  destruct (merge_coords_single _ _ Hn H1) as (c1 & ->).
  destruct (merge_coords_single _ _ Hn H2) as (c2 & E2).
  exists c1, c2; simpl. rewrite E2; reflexivity.
Qed.

(** [_prep_lanes] computes the distance of every merged row, in order. *)
Lemma _prep_lanes_unfold (nodes : Nodes) (lanes : Lanes) :
  _prep_lanes nodes lanes =
  Py.bind
    (mapM (fun r =>
             let '((l, (flat, flon)), (tlat, tlon)) := r in
             Py.bind (Utils.haversine flon flat tlon tlat) (fun h =>
             Ok (mkPreppedLane l flat flon tlat tlon (h * Utils.ROAD_FACTOR)%float)))
          (flat_map (merged_rows nodes) (lane_rows lanes)))
    (fun rows => Ok (mkPreppedLanes rows (lane_columns lanes))).
Proof.
  unfold _prep_lanes. rewrite flat_map_flat_map. reflexivity.
Qed.

Lemma _prep_lanes_index (nodes : Nodes) (lanes : Lanes) (pl : PreppedLanes) :
  _prep_lanes nodes lanes = Ok pl ->
  lane_index pl =
  map (fun r => lane_key (fst (fst r)))
      (flat_map (merged_rows nodes) (lane_rows lanes)) /\
  prepped_columns pl = lane_columns lanes.
Proof.
  rewrite _prep_lanes_unfold. intros H.
  apply bind_ok in H as (rows & Hm & H). injection H as <-. simpl.
  split; [|reflexivity]. unfold lane_index; simpl.
  eapply mapM_ok_map; [|exact Hm].
  intros [[l [flat flon]] [tlat tlon]] y _ Hy.
  apply bind_ok in Hy as (h & _ & Hy). injection Hy as <-. reflexivity.
Qed.

(** The keys of the enriched table are the keys of the raw lanes whose two
    endpoints are node labels. *)
Lemma _prep_lanes_index_in (nodes : Nodes) (lanes : Lanes) (pl : PreppedLanes)
  (k : string * string) :
  _prep_lanes nodes lanes = Ok pl ->
  (In k (lane_index pl) <->
   exists l, In l (lane_rows lanes) /\ known_lane nodes l = true /\ lane_key l = k).
Proof.
  intros H. destruct (_prep_lanes_index _ _ _ H) as [-> _].
  rewrite in_map_iff. split.
  - intros (r & <- & Hr). apply in_flat_map in Hr as (l & Hl & Hr).
    apply merged_rows_lane in Hr as [-> Hk]. eauto.
  - intros (l & Hl & Hk & <-).
    destruct (merged_rows nodes l) as [|r rs] eqn:E.
    + destruct (merged_rows_known _ _ Hk E).
    + exists r; split.
      * destruct (merged_rows_lane nodes l r) as [El _];
          [rewrite E; simpl; auto | rewrite El; reflexivity].
      * apply in_flat_map; exists l; split; [assumption|]. rewrite E; simpl; auto.
Qed.

(** Both endpoints of a key of the enriched table are node labels. *)
Lemma _prep_lanes_endpoints (nodes : Nodes) (lanes : Lanes) (pl : PreppedLanes)
  (i j : string) :
  _prep_lanes nodes lanes = Ok pl -> In (i, j) (lane_index pl) ->
  In i (node_index nodes) /\ In j (node_index nodes).
Proof.
  intros H Hk.
  apply (_prep_lanes_index_in _ _ _ _ H) in Hk as (l & _ & Hk & E).
  injection E as <- <-. unfold known_lane in Hk.
  apply andb_true_iff in Hk as [H1 H2].
  split; apply (mem_In _ String.eqb_eq); assumption.
Qed.

(** C3 (as amended).  Lane preprocessing has no MissingNodeReference
    condition.  A lane whose origin or destination is not a label of the
    node table is dropped by the inner merge: preprocessing gives exactly
    what it gives on the table without those lanes, and every key of the
    enriched table has both endpoints in the node table. *)
Theorem lanes_with_missing_endpoint_dropped (nodes : Nodes) (lanes : Lanes) :
  _prep_lanes nodes lanes
  = _prep_lanes nodes (mkLanes (filter (known_lane nodes) (lane_rows lanes))
                               (lane_columns lanes)) /\
  (forall pl i j,
      _prep_lanes nodes lanes = Ok pl -> In (i, j) (lane_index pl) ->
      In i (node_index nodes) /\ In j (node_index nodes)).
Proof.
  split.
  - rewrite !_prep_lanes_unfold; simpl.
    rewrite flat_map_filter_nil; [reflexivity|].
    intros l _; apply merged_rows_unknown.
  - intros pl i j H Hk. exact (_prep_lanes_endpoints _ _ _ _ _ H Hk).
Qed.

(** C4 (as amended).  Lane preprocessing makes no duplicate check.  With
    unique node ids the enriched table has one row, in order, for every raw
    lane whose endpoints are node labels, so its keys are unique exactly
    when the keys of those raw lanes are. *)
Theorem duplicate_lanes_kept (nodes : Nodes) (lanes : Lanes) (pl : PreppedLanes) :
  _prep_lanes nodes lanes = Ok pl ->
  NoDup (node_index nodes) ->
  lane_index pl = map lane_key (filter (known_lane nodes) (lane_rows lanes)) /\
  (NoDup (lane_index pl) <->
   NoDup (map lane_key (filter (known_lane nodes) (lane_rows lanes)))).
Proof.
  intros H Hn.
  assert (E : lane_index pl
              = map lane_key (filter (known_lane nodes) (lane_rows lanes))).
  { destruct (_prep_lanes_index _ _ _ H) as [-> _].
    induction (lane_rows lanes) as [|l ls IH]; simpl; [reflexivity|].
    rewrite map_app, IH.
    destruct (known_lane nodes l) eqn:Ek.
    - destruct (merged_rows_single _ _ Hn Ek) as (c1 & c2 & ->). reflexivity.
    - rewrite (merged_rows_unknown _ _ Ek). reflexivity. }
  rewrite E. split; [reflexivity | tauto].
Qed.

End PrepLanes.

(** C3, as the claim states it, fails: a lane from an unknown node does not
    make preprocessing fail; the enriched table is returned without it. *)
Lemma missing_endpoint_not_rejected :
  prepped_index (@_prep_lanes (demo_ext StOptimal 0 0) (demo_nodes 0)
                   lanes_with_unknown_origin)
  = Some [("P1"%string, "D1"%string); ("D1"%string, "C1"%string)].
Proof. vm_compute; reflexivity. Qed.

Lemma missing_endpoint_dropped_witness :
  @_prep_lanes (demo_ext StOptimal 0 0) (demo_nodes 0) lanes_with_unknown_origin
  = @_prep_lanes (demo_ext StOptimal 0 0) (demo_nodes 0) demo_lanes.
Proof.
  rewrite (proj1 (@lanes_with_missing_endpoint_dropped (demo_ext StOptimal 0 0)
                    (demo_nodes 0) lanes_with_unknown_origin)).
  vm_compute; reflexivity.
Defined.

(** C4, as the claim states it, fails: a repeated (origin, destination)
    pair is not rejected, and the enriched table carries the key twice. *)
Lemma duplicate_lane_not_rejected :
  prepped_index (@_prep_lanes (demo_ext StOptimal 0 0) (demo_nodes 0)
                   lanes_with_duplicate)
  = Some [("P1"%string, "D1"%string); ("D1"%string, "C1"%string);
          ("P1"%string, "D1"%string)].
Proof. vm_compute; reflexivity. Qed.

Lemma duplicate_lanes_kept_witness :
  prepped_index (@_prep_lanes (demo_ext StOptimal 0 0) (demo_nodes 0)
                   lanes_with_duplicate)
  = Some (map lane_key (filter (known_lane (demo_nodes 0))
                               (lane_rows lanes_with_duplicate))).
Proof.
  destruct (@_prep_lanes (demo_ext StOptimal 0 0) (demo_nodes 0)
              lanes_with_duplicate) as [pl|e] eqn:E.
  - simpl. f_equal.
    apply (@duplicate_lanes_kept (demo_ext StOptimal 0 0) (demo_nodes 0)
             lanes_with_duplicate pl E).
    vm_compute. repeat constructor; simpl; intuition discriminate.
  - vm_compute in E. discriminate.
Defined.

(** ** The model builder: what each block of [build_model] returns *)

Ltac inv_ok :=
  repeat match goal with
    | H : Py.bind _ _ = Ok _ |- _ =>
        let a := fresh "a" in
        let E := fresh "E" in
        apply bind_ok in H as (a & E & H)
    | H : Ok _ = Ok _ |- _ => inversion H; subst; clear H
    | H : Err _ = Ok _ |- _ => discriminate H
    end.

Lemma mapM_Forall {A B : Type} (Q : B -> Prop) (f : A -> result B)
  (l : list A) (r : list B) :
  (forall x y, In x l -> f x = Ok y -> Q y) -> mapM f l = Ok r -> Forall Q r.
Proof.
  intros H E. apply Forall_forall. intros y Hy.
  destruct (mapM_ok_in _ _ _ E y Hy) as (x & Hx & Hf). eauto.
Qed.

Lemma mapM_ok_eq {A B : Type} (f : A -> result B) (g : A -> B)
  (l : list A) (r : list B) :
  (forall x y, In x l -> f x = Ok y -> y = g x) ->
  mapM f l = Ok r -> r = map g l.
Proof.
  intros H E. rewrite <- (map_id r).
  apply (mapM_ok_map f g (fun y => y) l r); assumption.
Qed.

Lemma in_concat_mapM {A B : Type} (f : A -> result (list B)) (l : list A)
  (r : list (list B)) (y : B) :
  mapM f l = Ok r ->
  (In y (List.concat r) <-> exists x ys, In x l /\ f x = Ok ys /\ In y ys).
Proof.
  intros E. rewrite in_concat. split.
  - intros (ys & Hys & Hy).
    destruct (mapM_ok_in _ _ _ E ys Hys) as (x & Hx & Hf). eauto.
  - intros (x & ys & Hx & Hf & Hy).
    destruct (mapM_ok_all _ _ _ E x Hx) as (ys' & Hf' & Hys').
    rewrite Hf in Hf'. injection Hf' as <-. eauto.
Qed.

Lemma getitem_ok {K : Type} (eqb : K -> K -> bool) name keys k v v' :
  getitem eqb name keys k v = Ok v' -> v' = v /\ mem eqb k keys = true.
Proof.
  unfold getitem. destruct (mem eqb k keys); [|discriminate].
  intros H; injection H as <-; auto.
Qed.

Lemma insert_sorted_In (x y : Z) (l : list Z) :
  In y (insert_sorted x l) <-> y = x \/ In y l.
Proof.
  induction l as [|a l IH]; simpl; [intuition|].
  destruct (x <=? a)%Z; simpl; [intuition|]. rewrite IH. intuition.
Qed.

Lemma sorted_In (y : Z) (l : list Z) : In y (sorted l) <-> In y l.
Proof.
  unfold sorted. induction l as [|a l IH]; simpl; [tauto|].
  rewrite insert_sorted_In, IH. intuition.
Qed.

Lemma T_In (demand : list DemandRow) (t : Z) :
  In t (T demand) <-> exists row, In row demand /\ Period row = t.
Proof.
  unfold T. rewrite sorted_In, (unique_In _ Z.eqb_eq), in_map_iff.
  split; intros (row & H1 & H2); eauto.
Qed.

Section Builder.
Variables (nodes : Nodes) (demand : list DemandRow) (lanes : PreppedLanes)
  (products : Products).

Lemma flow_keys_In i j p t :
  In (i, j, p, t) (flow_keys demand lanes products) <->
  In (i, j) (lane_index lanes) /\ In p (P products) /\ In t (T demand).
Proof.
  unfold flow_keys. rewrite (unique_In _ key4_eqb_eq), in_map_iff. split.
  - intros ([[[i' j'] p'] t'] & E & H). injection E as -> -> -> ->.
    apply in_for3 in H. assumption.
  - intros H. exists ((i, j), p, t). split; [reflexivity|].
    apply in_for3. assumption.
Qed.

Lemma flow_at_ok i j p t v :
  flow_at demand lanes products i j p t = Ok v ->
  v = F i j p t /\
  In (i, j) (lane_index lanes) /\ In p (P products) /\ In t (T demand).
Proof.
  unfold flow_at. intros H. apply getitem_ok in H as [-> H].
  apply (mem_In _ key4_eqb_eq) in H. apply flow_keys_In in H. auto.
Qed.

Lemma flow_at_in i j p t :
  In (i, j) (lane_index lanes) -> In p (P products) -> In t (T demand) ->
  flow_at demand lanes products i j p t = Ok (F i j p t).
Proof.
  intros Hl Hp Ht. unfold flow_at, getitem.
  assert (E : mem key4_eqb (i, j, p, t) (flow_keys demand lanes products) = true)
    by (apply (mem_In _ key4_eqb_eq), flow_keys_In; auto).
  rewrite E. reflexivity.
Qed.

Lemma flow_at_unknown_product i j p t :
  ~ In p (P products) ->
  flow_at demand lanes products i j p t = Err (KeyError "F").
Proof.
  intros Hp. unfold flow_at, getitem.
  destruct (mem key4_eqb (i, j, p, t) (flow_keys demand lanes products)) eqn:E;
    [|reflexivity].
  apply (mem_In _ key4_eqb_eq), flow_keys_In in E. tauto.
Qed.

Lemma make_at_ok pl p t v :
  make_at nodes demand products pl p t = Ok v -> v = Make pl p t.
Proof. unfold make_at. intros H. apply getitem_ok in H as [-> _]. reflexivity. Qed.


Lemma inv_at_ok n p t v :
  inv_at nodes demand products n p t = Ok v -> v = Inv n p t.
Proof. unfold inv_at. intros H. apply getitem_ok in H as [-> _]. reflexivity. Qed.


Lemma open_at_ok d v :
  open_at nodes d = Ok v -> v = Open d /\ In d (DC nodes).
Proof.
  unfold open_at. intros H. apply getitem_ok in H as [-> H].
  apply (mem_In _ String.eqb_eq) in H.
  apply (proj1 (unique_In _ String.eqb_eq _ _)) in H. auto.
Qed.

Lemma open_at_in d : In d (DC nodes) -> open_at nodes d = Ok (Open d).
Proof.
  intros H. unfold open_at, getitem.
  assert (E : mem String.eqb d (open_dc nodes) = true).
  { apply (mem_In _ String.eqb_eq). unfold open_dc.
    apply (unique_In _ String.eqb_eq). assumption. }
  rewrite E. reflexivity.
Qed.

End Builder.

Ltac var_ok :=
  repeat match goal with
    | H : flow_at _ _ _ _ _ _ _ = Ok _ |- _ => apply flow_at_ok in H as [-> _]
    | H : make_at _ _ _ _ _ _ = Ok _ |- _ => apply make_at_ok in H as ->
    | H : inv_at _ _ _ _ _ _ = Ok _ |- _ => apply inv_at_ok in H as ->
    | H : open_at _ _ = Ok _ |- _ => apply open_at_ok in H as [-> _]
    end.

Ltac split_keys :=
  repeat match goal with
    | x : (_ * _)%type |- _ => destruct x
    end.

(** Every term of a sum built from flow, make or inv variables. *)
Ltac terms_open_free H :=
  eapply mapM_Forall; [|exact H];
  let x := fresh "x" in
  let y := fresh "y" in
  let Hy := fresh "Hy" in
  intros x y _ Hy; split_keys; simpl in Hy; inv_ok; var_ok; reflexivity.

Lemma open_free_intro (ts1 ts2 : list (float * Var)) (s : LpSense) (c1 c2 : float) :
  Forall (fun t => is_open (snd t) = false) ts1 ->
  Forall (fun t => is_open (snd t) = false) ts2 ->
  open_free (mkConstraint (mkExpr ts1 c1) s (mkExpr ts2 c2)).
Proof.
  intros H1 H2. unfold open_free, constraint_vars, expr_vars; simpl.
  apply Forall_app; split; apply Forall_map; assumption.
Qed.

Lemma open_free_not_in (c : LpConstraint) (d : string) :
  open_free c -> ~ In (Open d) (constraint_vars c).
Proof.
  intros H Hin. unfold open_free in H. rewrite Forall_forall in H.
  specialize (H _ Hin). discriminate.
Qed.

Section Blocks.
Variables (nodes : Nodes) (demand : list DemandRow) (lanes : PreppedLanes)
  (products : Products) (service_days carbon_price : float)
  (shut_nodes : list string).

Lemma build_objective_open obj c d :
  build_objective nodes demand lanes products carbon_price = Ok obj ->
  In (c, Open d) (terms obj) ->
  In d (DC nodes) /\ node_fixed nodes d = Ok c.
Proof.
  unfold build_objective. intros H Hin. inv_ok. simpl in Hin.
  rewrite !app_nil_r in Hin || idtac.
  repeat rewrite in_app_iff in Hin.
  assert (Hno : forall (A : Type) (f : A -> result (float * Var)) l r,
             mapM f l = Ok r ->
             (forall x y, In x l -> f x = Ok y -> is_open (snd y) = false) ->
             ~ In (c, Open d) r).
  { intros A f l r Hm Hf Hi.
    assert (Hall : Forall (fun t => is_open (snd t) = false) r)
      by (eapply mapM_Forall; [|exact Hm]; exact Hf).
    rewrite Forall_forall in Hall. specialize (Hall _ Hi). discriminate. }
  destruct Hin as [[[[[Hin|Hin]|Hin]|Hin]|Hin]|Hin].
  - exfalso. revert Hin. eapply Hno; [eassumption|].
    intros x y _ Hy; split_keys; simpl in Hy; inv_ok; var_ok; reflexivity.
  - unfold wh_fixed in *.
    match goal with
    | Hm : mapM _ (DC nodes) = Ok _ |- _ =>
        destruct (mapM_ok_in _ _ _ Hm _ Hin) as (d' & Hd & Hf)
    end.
    simpl in Hf. inv_ok.
    match goal with
    | Ho : open_at _ _ = Ok _ |- _ => apply open_at_ok in Ho as [Ho _]
    end.
    match goal with Ho : Open _ = Open _ |- _ => injection Ho as -> end.
    auto.
  - exfalso. revert Hin. eapply Hno; [eassumption|].
    intros x y _ Hy; split_keys; simpl in Hy; inv_ok; var_ok; reflexivity.
  - exfalso. revert Hin. eapply Hno; [eassumption|].
    intros x y _ Hy; split_keys; simpl in Hy; inv_ok; var_ok; reflexivity.
  - exfalso. revert Hin. eapply Hno; [eassumption|].
    intros x y _ Hy; split_keys; simpl in Hy; inv_ok; var_ok; reflexivity.
  - exfalso. revert Hin. eapply Hno; [eassumption|].
    intros x y _ Hy; split_keys; simpl in Hy; inv_ok; var_ok; reflexivity.
Qed.

(** The constraints one forced-closed node contributes. *)
Lemma shutdown_node_ok n cs :
  shutdown_node nodes demand lanes products n = Ok cs ->
  cs = shutdown_spec nodes demand lanes products n.
Proof.
  unfold shutdown_node, shutdown_spec. intros H. inv_ok. f_equal.
  - destruct (mem String.eqb n (DC nodes)); inv_ok; var_ok; reflexivity.
  - eapply mapM_ok_eq; [|eassumption].
    intros x y _ Hy; split_keys; simpl in Hy; inv_ok; var_ok; reflexivity.
Qed.

Lemma shutdown_node_total n :
  shutdown_node nodes demand lanes products n
  = Ok (shutdown_spec nodes demand lanes products n).
Proof.
  unfold shutdown_node, shutdown_spec.
  assert (E1 : (if mem String.eqb n (DC nodes)
                then Py.bind (open_at nodes n) (fun v => Ok [fixed_to_zero v])
                else Ok [])
               = Ok (if mem String.eqb n (DC nodes)
                     then [fixed_to_zero (Open n)] else [])).
  { destruct (mem String.eqb n (DC nodes)) eqn:E; [|reflexivity].
    apply (mem_In _ String.eqb_eq) in E. rewrite (open_at_in _ _ E). reflexivity. }
  rewrite E1; simpl.
  rewrite (mapM_total _
             (fun k => let '((i, j), p, t) := k in fixed_to_zero (F i j p t))).
  - reflexivity.
  - intros [[[i j] p] t] Hk. apply in_for3 in Hk as (Hl & Hp & Ht).
    apply filter_In in Hl as [Hl _].
    rewrite (flow_at_in _ _ _ _ _ _ _ Hl Hp Ht). reflexivity.
Qed.

Lemma shutdown_constraints_ok :
  shutdown_constraints nodes demand lanes products shut_nodes
  = Ok (flat_map (shutdown_spec nodes demand lanes products) shut_nodes).
Proof.
  unfold shutdown_constraints.
  rewrite (mapM_total _ _ shut_nodes (fun n _ => shutdown_node_total n)).
  simpl. rewrite <- flat_map_concat_map. reflexivity.
Qed.

Lemma capacity_open_free cs :
  capacity_constraints nodes demand lanes products = Ok cs ->
  Forall open_free cs.
Proof.
  unfold capacity_constraints. intros H. inv_ok.
  apply Forall_forall. intros c Hc.
  match goal with
  | Hm : mapM _ _ = Ok _ |- _ =>
      apply (in_concat_mapM _ _ _ c Hm) in Hc as (n & ys & _ & Hn & Hy)
  end.
  unfold capacity_node in Hn. inv_ok.
  match goal with
  | H : match ?cap with Some _ => _ | None => _ end = Ok _ |- _ =>
      destruct cap as [cv|]; [destruct (truthy cv)|]
  end; inv_ok; try (destruct Hy; fail).
  match goal with
  | Hm : mapM _ (T demand) = Ok _ |- _ =>
      destruct (mapM_ok_in _ _ _ Hm _ Hy) as (t & _ & Ht)
  end.
  simpl in Ht. inv_ok. apply open_free_intro; [|constructor].
  match goal with Hm : mapM _ _ = Ok _ |- _ => terms_open_free Hm end.
Qed.

Lemma demand_open_free cs :
  demand_constraints nodes demand lanes products = Ok cs -> Forall open_free cs.
Proof.
  unfold demand_constraints. intros H.
  eapply mapM_Forall; [|exact H]. intros row c _ Hc. simpl in Hc. inv_ok.
  apply open_free_intro; [|constructor].
  match goal with Hm : mapM _ _ = Ok _ |- _ => terms_open_free Hm end.
Qed.

Lemma service_open_free cs :
  service_constraints nodes demand lanes products service_days = Ok cs ->
  Forall open_free cs.
Proof.
  unfold service_constraints. intros H.
  eapply mapM_Forall; [|exact H]. intros row c _ Hc. simpl in Hc. inv_ok.
  apply open_free_intro; [|constructor].
  match goal with Hm : mapM _ _ = Ok _ |- _ => terms_open_free Hm end.
Qed.

Lemma mass_balance_ok n p ti c :
  mass_balance nodes demand lanes products n p ti (nth ti (T demand) 0%Z) = Ok c ->
  c = mass_balance_spec nodes demand lanes n p ti.
Proof.
  intros H. unfold mass_balance in H. unfold mass_balance_spec.
  cbv zeta. set (t := nth ti (T demand) 0%Z) in *. clearbody t. inv_ok.
  assert (Ein : a = map (fun i => (1%float, F i n p t)) (inbound nodes lanes n)).
  { eapply mapM_ok_eq; [|eassumption].
    intros x y _ Hy; simpl in Hy; inv_ok; var_ok; reflexivity. }
  assert (Eout : a0 = map (fun j => (1%float, F n j p t)) (outbound nodes lanes n)).
  { eapply mapM_ok_eq; [|eassumption].
    intros x y _ Hy; simpl in Hy; inv_ok; var_ok; reflexivity. }
  subst a a0. var_ok.
  assert (Emk : a1 = map (fun j => (1%float, F n j p t)) (outbound nodes lanes n)
                     ++ (if mem String.eqb n (PLT nodes)
                         then [(1%float, Make n p t)] else [])).
  { destruct (mem String.eqb n (PLT nodes)); inv_ok; var_ok;
      [reflexivity | rewrite app_nil_r; reflexivity]. }
  assert (Eprev : a2 = if Nat.eqb ti 0 then []
                       else [(1%float, Inv n p (nth (ti - 1) (T demand) 0%Z))]).
  { destruct ti as [|k]; simpl in *; inv_ok; var_ok; reflexivity. }
  subst a1 a2. reflexivity.
Qed.

Lemma mass_balance_open_free cs :
  mass_balance_constraints nodes demand lanes products = Ok cs ->
  Forall open_free cs.
Proof.
  unfold mass_balance_constraints. intros H.
  eapply mapM_Forall; [|exact H]. intros [[n p] [ti t]] c _ Hc.
  unfold mass_balance in Hc. inv_ok. var_ok.
  assert (H0 : Forall (fun t => is_open (snd t) = false) a)
    by (match goal with Hm : mapM _ (inbound _ _ _) = Ok a |- _ =>
          terms_open_free Hm end).
  assert (H1 : Forall (fun t => is_open (snd t) = false) a0)
    by (match goal with Hm : mapM _ (outbound _ _ _) = Ok a0 |- _ =>
          terms_open_free Hm end).
  assert (H2 : Forall (fun t => is_open (snd t) = false) a1).
  { destruct (mem String.eqb n (PLT nodes)); inv_ok; var_ok; [|assumption].
    apply Forall_app; split; [assumption | repeat constructor]. }
  assert (H3 : Forall (fun t => is_open (snd t) = false) a2).
  { destruct (0 <? ti)%nat; inv_ok; var_ok; repeat constructor. }
  apply open_free_intro; apply Forall_app; split;
    try assumption; repeat constructor.
Qed.

Lemma bom_open_free cs :
  bom_constraints nodes demand products = Ok cs -> Forall open_free cs.
Proof.
  unfold bom_constraints.
  destruct (has_BOM_Component products); intros H; inv_ok; [|constructor].
  apply Forall_forall. intros c Hc.
  match goal with
  | Hm : mapM _ _ = Ok _ |- _ =>
      apply (in_concat_mapM _ _ _ c Hm) in Hc as (row & ys & _ & Hr & Hy)
  end.
  unfold bom_product in Hr.
  destruct (BOM_Component row) as [parent|]; inv_ok; [|destruct Hy].
  match goal with
  | Hm : mapM _ _ = Ok ys |- _ =>
      destruct (mapM_ok_in _ _ _ Hm _ Hy) as ([pl t] & _ & Hc)
  end.
  simpl in Hc. inv_ok. var_ok.
  apply open_free_intro; repeat constructor.
Qed.

(** What a successful build is made of. *)
Lemma build_body_ok mdl var :
  build_body nodes demand lanes products service_days carbon_price shut_nodes
  = Ok (mdl, var) ->
  exists obj c2 c3 c4 c5 c6,
    build_objective nodes demand lanes products carbon_price = Ok obj /\
    capacity_constraints nodes demand lanes products = Ok c2 /\
    demand_constraints nodes demand lanes products = Ok c3 /\
    service_constraints nodes demand lanes products service_days = Ok c4 /\
    mass_balance_constraints nodes demand lanes products = Ok c5 /\
    bom_constraints nodes demand products = Ok c6 /\
    mdl = mkProblem obj
            (flat_map (shutdown_spec nodes demand lanes products) shut_nodes
             ++ c2 ++ c3 ++ c4 ++ c5 ++ c6) /\
    var = mkVarDicts (flow_keys demand lanes products) (open_dc nodes)
            (inv_keys nodes demand products) (make_keys nodes demand products).
Proof.
  unfold build_body. rewrite shutdown_constraints_ok. intros H. inv_ok.
  do 6 eexists. repeat split; eassumption.
Qed.

Lemma touches_iff n i j : touches n (i, j) = true <-> i = n \/ j = n.
Proof.
  unfold touches; simpl. rewrite orb_true_iff, !String.eqb_eq. tauto.
Qed.

Lemma shutdown_spec_In n c :
  In c (shutdown_spec nodes demand lanes products n) <->
  (In n (DC nodes) /\ c = fixed_to_zero (Open n)) \/
  (exists i j p t,
      In (i, j) (lane_index lanes) /\ (i = n \/ j = n) /\
      In p (P products) /\ In t (T demand) /\ c = fixed_to_zero (F i j p t)).
Proof.
  unfold shutdown_spec. rewrite in_app_iff, in_map_iff. split.
  - intros [H|([[[i j] p] t] & <- & H)].
    + destruct (mem String.eqb n (DC nodes)) eqn:E; [|destruct H].
      apply (mem_In _ String.eqb_eq) in E.
      destruct H as [<-|[]]. auto.
    + apply in_for3 in H as (Hl & Hp & Ht). apply filter_In in Hl as [Hl Ht'].
      apply touches_iff in Ht'. right. exists i, j, p, t. auto.
  - intros [[Hn ->]|(i & j & p & t & Hl & Hn & Hp & Ht & ->)].
    + left. apply (mem_In _ String.eqb_eq) in Hn. rewrite Hn. simpl; auto.
    + right. exists ((i, j), p, t). split; [reflexivity|].
      apply in_for3. repeat split; try assumption.
      apply filter_In. split; [assumption | apply touches_iff; assumption].
Qed.

(** A constraint that mentions an [open] variable is that variable's
    shutdown constraint. *)
Lemma constraints_with_open mdl var c d :
  build_body nodes demand lanes products service_days carbon_price shut_nodes
  = Ok (mdl, var) ->
  In c (constraints mdl) -> In (Open d) (constraint_vars c) ->
  c = fixed_to_zero (Open d) /\ In d shut_nodes /\ In d (DC nodes).
Proof.
  intros H Hc Hd.
  apply build_body_ok in H
    as (obj & c2 & c3 & c4 & c5 & c6 & _ & H2 & H3 & H4 & H5 & H6 & -> & _).
  simpl in Hc. rewrite !in_app_iff in Hc.
  assert (Hfree : forall cs, Forall open_free cs -> In c cs -> False).
  { intros cs Hf Hin. rewrite Forall_forall in Hf.
    apply (open_free_not_in c d (Hf _ Hin) Hd). }
  destruct Hc as [Hc|[Hc|[Hc|[Hc|[Hc|Hc]]]]].
  - apply in_flat_map in Hc as (n & Hn & Hc).
    apply shutdown_spec_In in Hc
      as [[Hdc ->]|(i & j & p & t & _ & _ & _ & _ & ->)].
    + destruct Hd as [E|[]]. injection E as <-. auto.
    + destruct Hd as [E|[]]. discriminate.
  - destruct (Hfree c2 (capacity_open_free _ H2) Hc).
  - destruct (Hfree c3 (demand_open_free _ H3) Hc).
  - destruct (Hfree c4 (service_open_free _ H4) Hc).
  - destruct (Hfree c5 (mass_balance_open_free _ H5) Hc).
  - destruct (Hfree c6 (bom_open_free _ H6) Hc).
Qed.

End Blocks.

Lemma build_model_ok {ext : External} nodes demand lanes products sd ss cp shut
  mdl var :
  build_model nodes demand lanes products sd ss cp shut = Ok (mdl, var) ->
  exists pl,
    _prep_lanes nodes lanes = Ok pl /\
    build_body nodes demand pl products sd cp (shut_set shut) = Ok (mdl, var).
Proof.
  unfold build_model. intros H. apply bind_ok in H as (pl & Hp & H). eauto.
Qed.

Section SemanticsLemmas.
Variables (R : Type) (of_float : float -> R) (radd rmul : R -> R -> R)
  (rel : LpSense -> R -> R -> Prop).

Lemma eval_ext (rho rho' : Var -> R) (e : LpAffineExpression) :
  (forall v, In v (expr_vars e) -> rho v = rho' v) ->
  eval of_float radd rmul rho e = eval of_float radd rmul rho' e.
Proof.
  unfold eval, expr_vars. destruct e as [ts k]; simpl.
  induction ts as [|[c v] ts IH]; simpl; intros H; [reflexivity|].
  rewrite (H v (or_introl eq_refl)), IH; auto.
Qed.

Lemma holds_ext (rho rho' : Var -> R) (c : LpConstraint) :
  (forall v, In v (constraint_vars c) -> rho v = rho' v) ->
  holds of_float radd rmul rel rho c <-> holds of_float radd rmul rel rho' c.
Proof.
  unfold holds, constraint_vars. intros H.
  rewrite (eval_ext rho rho' (lhs c)), (eval_ext rho rho' (rhs c)); [tauto| |];
    intros v Hv; apply H, in_app_iff; auto.
Qed.

End SemanticsLemmas.

(** ** The formulation *)

Section Formulation.
Context {ext : External}.

(** C1.  The [open] variables enter a formulation returned by
    [build_model] only through the DC fixed-cost terms of the objective and
    through the shutdown constraints: a term of the objective on [open[d]]
    is the fixed-cost term of the DC [d]; a constraint that mentions
    [open[d]] is [open[d] == 0] for a forced-closed DC [d]; and for a [d]
    outside the forced-closed set no constraint depends on the value of
    [open[d]], whatever the numbers and the reading of the constraints. *)
Theorem open_only_in_fixed_cost_and_shutdown nodes demand lanes products
  sd ss cp shut mdl var :
  build_model nodes demand lanes products sd ss cp shut = Ok (mdl, var) ->
  (forall c d, In (c, Open d) (terms (objective mdl)) ->
               In d (DC nodes) /\ node_fixed nodes d = Ok c) /\
  (forall c d, In c (constraints mdl) -> In (Open d) (constraint_vars c) ->
               c = fixed_to_zero (Open d) /\
               In d (shut_set shut) /\ In d (DC nodes)) /\
  (forall d, ~ In d (shut_set shut) ->
     forall (R : Type) (of_float : float -> R) (radd rmul : R -> R -> R)
            (rel : LpSense -> R -> R -> Prop) (rho rho' : Var -> R),
       (forall v, v <> Open d -> rho v = rho' v) ->
       forall c, In c (constraints mdl) ->
         (holds of_float radd rmul rel rho c <->
          holds of_float radd rmul rel rho' c)).
Proof.
  intros H. apply build_model_ok in H as (pl & Hp & Hb).
  assert (Hc : forall c d, In c (constraints mdl) ->
                 In (Open d) (constraint_vars c) ->
                 c = fixed_to_zero (Open d) /\
                 In d (shut_set shut) /\ In d (DC nodes))
    by (intros c d; apply (constraints_with_open _ _ _ _ _ _ _ _ _ c d Hb)).
  split; [|split].
  - intros c d Hin.
    apply build_body_ok in Hb
      as (obj & c2 & c3 & c4 & c5 & c6 & Ho & _ & _ & _ & _ & _ & -> & _).
    simpl in Hin.
    apply (build_objective_open _ _ _ _ _ _ _ _ Ho Hin).
  - exact Hc.
  - intros d Hd R of_float radd rmul rel rho rho' Hagree c Hin.
    apply holds_ext. intros v Hv. apply Hagree. intros ->.
    destruct (Hc c d Hin Hv) as (_ & Hs & _). contradiction.
Qed.

Lemma inbound_iff nodes lanes pl n i :
  _prep_lanes nodes lanes = Ok pl ->
  (In i (inbound nodes pl n) <-> In (i, n) (lane_index pl)).
Proof.
  intros H. unfold inbound, N. rewrite filter_In, (mem_In _ pair_eqb_eq).
  split; [tauto|]. intros Hk. split; [|assumption].
  apply (_prep_lanes_endpoints _ _ _ _ _ H Hk).
Qed.



Lemma enumerate_In {A : Type} (l : list A) (d : A) (ti : nat) (x : A) :
  In (ti, x) (enumerate l) -> (ti < List.length l)%nat /\ x = nth ti l d.
Proof.
  unfold enumerate.
  assert (G : forall s, In (ti, x) (combine (seq s (List.length l)) l) ->
              (s <= ti < s + List.length l)%nat /\ x = nth (ti - s) l d).
  { induction l as [|a l IH]; simpl; intros s H; [destruct H|].
    destruct H as [E|H].
    - injection E as <- <-. split; [lia|]. rewrite Nat.sub_diag. reflexivity.
    - destruct (IH (S s) H) as [Hr ->]. split; [lia|].
      replace (ti - s)%nat with (S (ti - S s)) by lia. reflexivity. }
  intros H. destruct (G 0%nat H) as [Hr ->]. rewrite Nat.sub_0_r.
  split; [lia | reflexivity].
Qed.

Lemma open_table_In (sol : Solution) (keys l : list string) (d : string) :
  open_table sol keys = Ok l -> In d l ->
  In d keys /\ exists x, sol (Open d) = Some x /\ (0.5 <? x)%float = true.
Proof.
  unfold open_table. intros H Hd. apply bind_ok in H as (bs & Hm & H).
  injection H as <-. apply in_map_iff in Hd as ([d' b] & E & Hf).
  simpl in E; subst d'. apply filter_In in Hf as [Hin Hb]. simpl in Hb; subst b.
  destruct (mapM_ok_in _ _ _ Hm _ Hin) as (k & Hk & Hf).
  apply bind_ok in Hf as (b & Ho & Hf). injection Hf as -> ->.
  split; [assumption|]. unfold open_shown in Ho.
  destruct (sol (Open d)) as [x|]; [|discriminate].
  injection Ho as Ho. eauto.
Qed.

(** C6.  For a node [n] of the forced-closed set the formulation has the
    row [1*open[n] + 0 == 0] when [n] is a DC, and the row
    [1*flow[i,j,p,t] + 0 == 0] for every lane (i,j) of the enriched table
    with [i = n] or [j = n], every product and every period.  Consequently,
    in the result of an optimal run whose solution honours these rows up to
    the extractor's tolerance, no flow record touches [n] and [n] is not in
    [open_dc]. *)
Theorem forced_closed_node_fixed_and_hidden nodes demand lanes products
  sd ss cp shut mdl var pl n :
  build_model nodes demand lanes products sd ss cp shut = Ok (mdl, var) ->
  _prep_lanes nodes lanes = Ok pl ->
  In n (shut_set shut) ->
  (In n (DC nodes) ->
   In (mkConstraint (mkExpr [(1%float, Open n)] 0%float) LpConstraintEQ
         (mkExpr [] 0%float))
      (constraints mdl)) /\
  (forall i j p t,
      In (i, j) (lane_index pl) -> i = n \/ j = n ->
      In p (P products) -> In t (T demand) ->
      In (mkConstraint (mkExpr [(1%float, F i j p t)] 0%float) LpConstraintEQ
            (mkExpr [] 0%float))
         (constraints mdl)) /\
  (forall status res,
      outcome (solve_and_extract nodes demand lanes products sd ss cp shut)
      = Ok (status, Some res) ->
      honours_fixings (snd (cbc_solve mdl)) mdl ->
      (forall r, In r (res_flow res) -> From r <> n /\ To r <> n) /\
      ~ In n (res_open_dc res)).
Proof.
  intros Hbm Hp Hn.
  destruct (build_model_ok _ _ _ _ _ _ _ _ _ _ Hbm) as (pl' & Hp' & Hb).
  rewrite Hp in Hp'. injection Hp' as <-.
  destruct (build_body_ok _ _ _ _ _ _ _ _ _ Hb)
    as (obj & c2 & c3 & c4 & c5 & c6 & _ & _ & _ & _ & _ & _ & Em & Ev).
  assert (Hopen : In n (DC nodes) ->
                  In (mkConstraint (mkExpr [(1%float, Open n)] 0%float)
                        LpConstraintEQ (mkExpr [] 0%float))
                     (constraints mdl)).
  { intros Hd. rewrite Em. simpl. apply in_app_iff. left.
    apply in_flat_map. exists n. split; [assumption|].
    apply shutdown_spec_In. left. split; [assumption | reflexivity]. }
  assert (Hflow : forall i j p t,
             In (i, j) (lane_index pl) -> i = n \/ j = n ->
             In p (P products) -> In t (T demand) ->
             In (mkConstraint (mkExpr [(1%float, F i j p t)] 0%float)
                   LpConstraintEQ (mkExpr [] 0%float))
                (constraints mdl)).
  { intros i j p t Hl Ht Hpp Htt. rewrite Em. simpl. apply in_app_iff. left.
    apply in_flat_map. exists n. split; [assumption|].
    apply shutdown_spec_In. right. exists i, j, p, t. repeat split; auto. }
  split; [exact Hopen | split; [exact Hflow|]].
  intros status res Hr Hh.
  destruct (solve_and_extract_optimal _ _ _ _ _ _ _ _ _ _ _ _ Hbm Hr)
    as (_ & Ef & Eo).
  split.
  - intros [i j p t x] Hin. rewrite Ef in Hin.
    apply flow_table_In in Hin as (Hk & Hs & Hx).
    rewrite Ev in Hk. simpl in Hk. apply flow_keys_In in Hk as (Hl & Hpp & Htt).
    simpl.
    assert (Hno : ~ (i = n \/ j = n)).
    { intros Ht. destruct (Hh _ (Hflow i j p t Hl Ht Hpp Htt)) as (y & Ey & Hy).
      rewrite Hs in Ey. injection Ey as <-.
      rewrite (le_threshold_not_gt _ Hy) in Hx. discriminate. }
    tauto.
  - intros Hin. destruct (open_table_In _ _ _ _ Eo Hin) as (Hk & x & Ex & Hx).
    rewrite Ev in Hk. simpl in Hk. unfold open_dc in Hk.
    apply (proj1 (unique_In _ String.eqb_eq _ _)) in Hk.
    destruct (Hh _ (Hopen Hk)) as (y & Ey & Hy).
    rewrite Ex in Ey. injection Ey as <-.
    rewrite (le_threshold_not_half _ Hy) in Hx. discriminate.
Qed.


End Formulation.

Lemma open_only_witness :
  In "D1"%string (DC (demo_nodes 0)) /\
  node_fixed (demo_nodes 0) "D1" = Ok 10%float.
Proof.
  destruct (@open_only_in_fixed_cost_and_shutdown (demo_ext StOptimal 0 0)
              (demo_nodes 0) demo_demand demo_lanes demo_products 7 0.10 0
              (Some ["D1"%string])
              (built_model (demo_built StOptimal 0 0 0 (Some ["D1"%string])))
              (built_vars (demo_built StOptimal 0 0 0 (Some ["D1"%string]))))
    as (H & _ & _); [vm_compute; reflexivity|].
  apply (H 10%float "D1"%string). vm_compute. auto 10.
Defined.

Lemma forced_closed_witness :
  In (mkConstraint (mkExpr [(1%float, Open "D1")] 0%float) LpConstraintEQ
        (mkExpr [] 0%float))
     (constraints (built_model two_dc_built)) /\
  In (mkConstraint (mkExpr [(1%float, F "P1" "D1" "W" 1)] 0%float)
        LpConstraintEQ (mkExpr [] 0%float))
     (constraints (built_model two_dc_built)) /\
  res_flow (run_result two_dc_run)
  = [mkFlowRecord "P1" "D2" "W" 1 1000; mkFlowRecord "D2" "C1" "W" 1 1000] /\
  res_open_dc (run_result two_dc_run) = ["D2"%string] /\
  ~ In "D1"%string (map From (res_flow (run_result two_dc_run))) /\
  ~ In "D1"%string (map To (res_flow (run_result two_dc_run))) /\
  ~ In "D1"%string (res_open_dc (run_result two_dc_run)).
Proof.
  destruct (@forced_closed_node_fixed_and_hidden two_dc_ext two_dc_nodes
              demo_demand two_dc_lanes demo_products 7 0.10 0
              (Some ["D1"%string])
              (built_model two_dc_built) (built_vars two_dc_built)
              two_dc_prepped "D1"%string)
    as (H1 & H2 & H3);
    [vm_compute; reflexivity | vm_compute; reflexivity | vm_compute; auto |].
  assert (Hh : honours_fixings
                 (snd (@cbc_solve two_dc_ext (built_model two_dc_built)))
                 (built_model two_dc_built)).
  { intros v Hin. vm_compute in Hin.
    repeat (destruct Hin as [E|Hin];
            [try discriminate E; injection E as <-;
             exists 0%float; split; vm_compute; reflexivity|]).
    destruct Hin. }
  destruct (H3 "Optimal"%string (run_result two_dc_run)
              ltac:(vm_compute; reflexivity) Hh) as (Hf & Ho).
  split; [apply H1; vm_compute; auto|].
  split; [apply (H2 "P1"%string "D1"%string "W"%string 1%Z);
          vm_compute; auto|].
  split; [vm_compute; reflexivity|].
  split; [vm_compute; reflexivity|].
  split; [|split].
  - intros Hin. apply in_map_iff in Hin as (r & E & Hr).
    destruct (Hf r Hr) as [Hfrom _]. contradiction.
  - intros Hin. apply in_map_iff in Hin as (r & E & Hr).
    destruct (Hf r Hr) as [_ Hto]. contradiction.
  - exact Ho.
Defined.


(** ** Capacity *)

(** A capacity of zero fails the test [if cap:] and yields no constraint. *)
Lemma capacity_node_zero nodes demand lanes products n c :
  node_cap nodes n = Ok (Some c) -> truthy c = false ->
  capacity_node nodes demand lanes products n = Ok [].
Proof.
  intros Hc Ht. unfold capacity_node. rewrite Hc. simpl. rewrite Ht. reflexivity.
Qed.

(** C5 on the scenario.  With a capacity of 100 at the DC D1 the
    formulation bounds the inbound flow of D1 by 100; with a capacity of 0
    it has no capacity constraint for D1 at all: its [<=] constraints are
    the plant's capacity and the service-time constraint. *)
Lemma zero_capacity_not_enforced :
  le_constraints (built_model (demo_built StOptimal 0 0 100 None))
  = [ mkConstraint (lpSum []) LpConstraintLE (num 500);
      mkConstraint (lpSum [(1%float, F "P1" "D1" "W" 1)]) LpConstraintLE (num 100);
      mkConstraint (lpSum [(2%float, F "D1" "C1" "W" 1)]) LpConstraintLE (num 7000) ]
  /\
  le_constraints (built_model (demo_built StOptimal 0 0 0 None))
  = [ mkConstraint (lpSum []) LpConstraintLE (num 500);
      mkConstraint (lpSum [(2%float, F "D1" "C1" "W" 1)]) LpConstraintLE (num 7000) ].
Proof. repeat split; vm_compute; reflexivity. Qed.

(** ** Failures of the model builder *)

Lemma mapM_is_ok {A B C : Type} (f : A -> result B) (g : A -> result C)
  (l : list A) :
  (forall x, In x l -> is_ok (f x) = is_ok (g x)) ->
  is_ok (mapM f l) = is_ok (mapM g l).
Proof.
  induction l as [|a l IH]; simpl; intros H; [reflexivity|].
  pose proof (H a (or_introl eq_refl)) as Ha.
  assert (IH' : is_ok (mapM f l) = is_ok (mapM g l)) by (apply IH; auto).
  destruct (f a), (g a); simpl in Ha; try discriminate; try reflexivity.
  destruct (mapM f l), (mapM g l); simpl in IH'; try discriminate; reflexivity.
Qed.

Lemma filter_nil {A : Type} (f : A -> bool) (l : list A) :
  (forall x, In x l -> f x = false) -> filter f l = [].
Proof.
  induction l as [|a l IH]; simpl; intros H; [reflexivity|].
  rewrite (H a (or_introl eq_refl)). apply IH. auto.
Qed.

Section Failures.
Variables (nodes : Nodes) (demand : list DemandRow) (lanes : PreppedLanes)
  (products : Products) (service_days carbon_price : float)
  (shut_nodes : list string).

Lemma build_body_fails_objective e :
  build_objective nodes demand lanes products carbon_price = Err e ->
  build_body nodes demand lanes products service_days carbon_price shut_nodes
  = Err e.
Proof. intros H. unfold build_body. rewrite H. reflexivity. Qed.

Lemma build_body_fails_demand e :
  demand_constraints nodes demand lanes products = Err e ->
  exists e',
    build_body nodes demand lanes products service_days carbon_price shut_nodes
    = Err e'.
Proof.
  intros H. unfold build_body. rewrite shutdown_constraints_ok, H.
  destruct (build_objective nodes demand lanes products carbon_price);
    simpl; [|eauto].
  destruct (capacity_constraints nodes demand lanes products); simpl; eauto.
Qed.

Lemma build_body_fails_service e :
  service_constraints nodes demand lanes products service_days = Err e ->
  exists e',
    build_body nodes demand lanes products service_days carbon_price shut_nodes
    = Err e'.
Proof.
  intros H. unfold build_body. rewrite shutdown_constraints_ok, H.
  destruct (build_objective nodes demand lanes products carbon_price);
    simpl; [|eauto].
  destruct (capacity_constraints nodes demand lanes products); simpl; [|eauto].
  destruct (demand_constraints nodes demand lanes products); simpl; eauto.
Qed.

(** The transport-cost sum raises as soon as it has a term to build and
    the lane table lacks the rate column. *)
Lemma trans_cost_missing_column k p t :
  has_Cost_per_lb_mi (prepped_columns lanes) = false ->
  In k (lane_index lanes) -> In p (P products) -> In t (T demand) ->
  exists e, build_objective nodes demand lanes products carbon_price = Err e.
Proof.
  intros Hc Hk Hp Ht.
  assert (Hf : exists e, trans_cost demand lanes products = Err e).
  { unfold trans_cost. apply (mapM_err_in _ _ (k, p, t) (KeyError "Cost_per_lb_mi")).
    - apply in_for3; auto.
    - destruct k as [i j]. rewrite (flow_at_in _ _ _ _ _ _ _ Hk Hp Ht). simpl.
      unfold lanes_loc. rewrite Hc. reflexivity. }
  destruct Hf as (e & Hf). unfold build_objective. rewrite Hf.
  destruct (prod_cost nodes demand products); simpl; [|eauto].
  destruct (wh_fixed nodes); simpl; [|eauto].
  destruct (wh_hold nodes demand products); simpl; eauto.
Qed.

Lemma demand_unknown_product row i :
  In row demand -> In i (inbound nodes lanes (CustomerID row)) ->
  ~ In (DemandProductID row) (P products) ->
  exists e, demand_constraints nodes demand lanes products = Err e.
Proof.
  intros Hr Hi Hp. unfold demand_constraints.
  assert (Hf : exists e,
             mapM (fun i => Py.bind (flow_at demand lanes products i (CustomerID row)
                                       (DemandProductID row) (Period row))
                              (fun v => Ok (1%float, v)))
                  (inbound nodes lanes (CustomerID row)) = Err e).
  { apply (mapM_err_in _ _ i (KeyError "F")); [assumption|].
    rewrite (flow_at_unknown_product _ _ _ _ _ _ _ Hp). reflexivity. }
  destruct Hf as (e & Hf).
  apply (mapM_err_in _ _ row e); [assumption|]. simpl. rewrite Hf. reflexivity.
Qed.

Lemma service_missing_column row i :
  has_TransitDays (prepped_columns lanes) = false ->
  In row demand -> In i (inbound nodes lanes (CustomerID row)) ->
  exists e, service_constraints nodes demand lanes products service_days = Err e.
Proof.
  intros Hc Hr Hi. unfold service_constraints.
  assert (Hf : exists e,
             mapM (fun i =>
                     Py.bind (flow_at demand lanes products i (CustomerID row)
                                (DemandProductID row) (Period row)) (fun v =>
                     Py.bind (lanes_loc lanes (i, CustomerID row) "TransitDays"
                                (has_TransitDays (prepped_columns lanes))
                                (fun r => TransitDays (lane r))) (fun d =>
                     Ok (d, v))))
                  (inbound nodes lanes (CustomerID row)) = Err e).
  { destruct (flow_at demand lanes products i (CustomerID row)
                (DemandProductID row) (Period row)) as [v|e0] eqn:Ef.
    - apply (mapM_err_in _ _ i (KeyError "TransitDays")); [assumption|].
      rewrite Ef. simpl. unfold lanes_loc. rewrite Hc. reflexivity.
    - apply (mapM_err_in _ _ i e0); [assumption|]. rewrite Ef. reflexivity. }
  destruct Hf as (e & Hf).
  apply (mapM_err_in _ _ row e); [assumption|]. simpl. rewrite Hf. reflexivity.
Qed.

(** A demand record whose customer has no inbound lane gives the two
    constraints over an empty sum. *)
Lemma empty_inflow_constraints mdl var row :
  build_body nodes demand lanes products service_days carbon_price shut_nodes
  = Ok (mdl, var) ->
  In row demand -> inbound nodes lanes (CustomerID row) = [] ->
  In (mkConstraint (lpSum []) LpConstraintGE (num (DemandLbs row)))
     (constraints mdl) /\
  In (mkConstraint (lpSum []) LpConstraintLE
        (num (DemandLbs row * service_days)%float))
     (constraints mdl).
Proof.
  intros H Hr Hi.
  apply build_body_ok in H
    as (obj & c2 & c3 & c4 & c5 & c6 & _ & _ & H3 & H4 & _ & _ & -> & _).
  simpl. rewrite !in_app_iff. split.
  - do 2 right. left. unfold demand_constraints in H3.
    destruct (mapM_ok_all _ _ _ H3 _ Hr) as (c & Hc & Hin).
    simpl in Hc. rewrite Hi in Hc. simpl in Hc. injection Hc as <-. assumption.
  - do 3 right. left. unfold service_constraints in H4.
    destruct (mapM_ok_all _ _ _ H4 _ Hr) as (c & Hc & Hin).
    simpl in Hc. rewrite Hi in Hc. simpl in Hc. injection Hc as <-. assumption.
Qed.

End Failures.

Section FailFast.
Context {ext : External}.

Lemma known_lane_inbound nodes lanes pl l :
  _prep_lanes nodes lanes = Ok pl ->
  In l (lane_rows lanes) -> known_lane nodes l = true ->
  In (FromNode l, ToNode l) (lane_index pl) /\
  In (FromNode l) (inbound nodes pl (ToNode l)).
Proof.
  intros Hp Hl Hk.
  assert (Hin : In (FromNode l, ToNode l) (lane_index pl))
    by (apply (_prep_lanes_index_in _ _ _ _ Hp); exists l; auto).
  split; [assumption|]. apply (inbound_iff _ _ _ _ _ Hp). assumption.
Qed.

Lemma unknown_customer_no_inbound nodes lanes pl c :
  _prep_lanes nodes lanes = Ok pl -> ~ In c (node_index nodes) ->
  inbound nodes pl c = [].
Proof.
  intros Hp Hc. unfold inbound. apply filter_nil. intros i _.
  destruct (mem pair_eqb (i, c) (lane_index pl)) eqn:E; [|reflexivity].
  apply (mem_In _ pair_eqb_eq) in E.
  destruct (_prep_lanes_endpoints _ _ _ _ _ Hp E) as [_ H]. contradiction.
Qed.

(** C2 (as amended).  [build_model] has no InvalidScenario check.  It
    fails, through a lookup that raises, when a demand record with an
    inbound lane names a product absent from the product table, when the
    lane table lacks Cost_per_lb_mi while a lane with known endpoints, a
    product and a demand record exist, and when it lacks TransitDays while a
    demand record has an inbound lane.  Whenever it fails,
    [solve_and_extract] raises the same exception and hands no formulation
    to the solver. *)
Theorem build_model_failures nodes demand lanes products sd ss cp shut :
  (forall e,
      build_model nodes demand lanes products sd ss cp shut = Err e ->
      solve_and_extract nodes demand lanes products sd ss cp shut
      = mkRun [] (Err e)) /\
  (forall row l,
      In row demand -> In l (lane_rows lanes) -> known_lane nodes l = true ->
      ToNode l = CustomerID row -> ~ In (DemandProductID row) (P products) ->
      exists e, build_model nodes demand lanes products sd ss cp shut = Err e) /\
  (has_Cost_per_lb_mi (lane_columns lanes) = false ->
   forall l,
      In l (lane_rows lanes) -> known_lane nodes l = true ->
      product_rows products <> [] -> demand <> [] ->
      exists e, build_model nodes demand lanes products sd ss cp shut = Err e) /\
  (has_TransitDays (lane_columns lanes) = false ->
   forall row l,
      In row demand -> In l (lane_rows lanes) -> known_lane nodes l = true ->
      ToNode l = CustomerID row ->
      exists e, build_model nodes demand lanes products sd ss cp shut = Err e).
Proof.
  repeat split.
  - intros e H. unfold solve_and_extract. rewrite H. reflexivity.
  - intros row l Hr Hl Hk Ht Hp. unfold build_model.
    destruct (_prep_lanes nodes lanes) as [pl|e] eqn:Hpl; simpl; [|eauto].
    destruct (known_lane_inbound _ _ _ _ Hpl Hl Hk) as [_ Hi]. rewrite Ht in Hi.
    destruct (demand_unknown_product nodes demand pl products row _ Hr Hi Hp)
      as (e & He).
    apply (build_body_fails_demand _ _ _ _ _ _ _ _ He).
  - intros Hc l Hl Hk Hpr Hd. unfold build_model.
    destruct (_prep_lanes nodes lanes) as [pl|e] eqn:Hpl; simpl; [|eauto].
    destruct (known_lane_inbound _ _ _ _ Hpl Hl Hk) as [Hin _].
    destruct (_prep_lanes_index _ _ _ Hpl) as [_ Ec].
    destruct (product_rows products) as [|pr prs] eqn:Ep; [congruence|].
    destruct demand as [|row rows] eqn:Ed; [congruence|]. rewrite <- Ed in *.
    assert (Hp : In (ProductID pr) (P products))
      by (unfold P; rewrite Ep; simpl; auto).
    assert (Ht : In (Period row) (T demand))
      by (apply T_In; exists row; rewrite Ed; simpl; auto).
    rewrite <- Ec in Hc.
    destruct (trans_cost_missing_column nodes demand pl products cp _ _ _
                Hc Hin Hp Ht) as (e & He).
    rewrite (build_body_fails_objective _ _ _ _ _ _ _ _ He). eauto.
  - intros Hc row l Hr Hl Hk Ht. unfold build_model.
    destruct (_prep_lanes nodes lanes) as [pl|e] eqn:Hpl; simpl; [|eauto].
    destruct (known_lane_inbound _ _ _ _ Hpl Hl Hk) as [_ Hi]. rewrite Ht in Hi.
    destruct (_prep_lanes_index _ _ _ Hpl) as [_ Ec]. rewrite <- Ec in Hc.
    destruct (service_missing_column nodes demand pl products sd row _ Hc Hr Hi)
      as (e & He).
    apply (build_body_fails_service _ _ _ _ _ _ _ _ He).
Qed.

End FailFast.

(** C2, as the claim states it, fails: with [service_days] zero or
    negative, and with a demand record for a customer that is not in the
    node table, [build_model] returns a formulation. *)
Lemma invalid_scenario_accepted :
  (0 <=? 0)%float = true /\
  is_ok (@build_model (demo_ext StOptimal 0 0) (demo_nodes 0) demo_demand
           demo_lanes demo_products 0 0.10 0 None) = true /\
  (-1 <=? 0)%float = true /\
  is_ok (@build_model (demo_ext StOptimal 0 0) (demo_nodes 0) demo_demand
           demo_lanes demo_products (-1) 0.10 0 None) = true /\
  mem String.eqb "Z"%string (node_index (demo_nodes 0)) = false /\
  is_ok (@build_model (demo_ext StOptimal 0 0) (demo_nodes 0)
           demand_with_unknown_customer demo_lanes demo_products 7 0.10 0 None)
  = true.
Proof. repeat split; vm_compute; reflexivity. Qed.

Lemma build_model_failures_witness :
  (exists e,
      @build_model (demo_ext StOptimal 0 0) (demo_nodes 0) demo_demand
        lanes_without_cost demo_products 7 0.10 0 None = Err e) /\
  @solve_and_extract (demo_ext StOptimal 0 0) (demo_nodes 0) demo_demand
    lanes_without_cost demo_products 7 0.10 0 None
  = mkRun [] (Err (KeyError "Cost_per_lb_mi")).
Proof.
  destruct (@build_model_failures (demo_ext StOptimal 0 0) (demo_nodes 0)
              demo_demand lanes_without_cost demo_products 7 0.10 0 None)
    as (H1 & _ & H3 & _).
  split.
  - apply (H3 eq_refl (demo_lane "P1" "D1")).
    + simpl; auto.
    + vm_compute; reflexivity.
    + discriminate.
    + discriminate.
  - apply H1. vm_compute; reflexivity.
Defined.

(** * Further properties of the code *)

From Stdlib Require Import Sorted Permutation.

(** ** The periods *)

Lemma unique_NoDup {A : Type} (eqb : A -> A -> bool)
  (eqb_eq : forall x y, eqb x y = true <-> x = y) (l : list A) :
  NoDup (unique eqb l).
Proof.
  induction l as [|a xs IH]; simpl; constructor.
  - rewrite filter_In; intros [_ H].
    assert (E : eqb a a = true) by (apply eqb_eq; reflexivity).
    rewrite E in H; discriminate.
  - apply NoDup_filter; assumption.
Qed.

Lemma insert_sorted_perm (x : Z) (l : list Z) :
  Permutation (insert_sorted x l) (x :: l).
Proof.
  induction l as [|a l IH]; simpl; [reflexivity|].
  destruct (x <=? a)%Z; [reflexivity|].
  rewrite IH. apply perm_swap.
Qed.

Lemma sorted_perm (l : list Z) : Permutation (sorted l) l.
Proof.
  unfold sorted. induction l as [|a l IH]; simpl; [reflexivity|].
  rewrite insert_sorted_perm. constructor. assumption.
Qed.

Lemma insert_sorted_le (x : Z) (l : list Z) :
  StronglySorted Z.le l -> StronglySorted Z.le (insert_sorted x l).
Proof.
  induction l as [|a l IH]; simpl; intros H.
  - repeat constructor.
  - inversion H as [|? ? Hl Ha]; subst.
    destruct (x <=? a)%Z eqn:E.
    + apply Z.leb_le in E. constructor; [assumption|].
      constructor; [assumption|].
      rewrite Forall_forall in *. intros y Hy. specialize (Ha y Hy). lia.
    + apply Z.leb_gt in E. constructor; [apply IH; assumption|].
      rewrite Forall_forall in *. intros y Hy.
      apply insert_sorted_In in Hy as [->|Hy]; [lia | auto].
Qed.

Lemma sorted_le (l : list Z) : StronglySorted Z.le (sorted l).
Proof.
  unfold sorted. induction l as [|a l IH]; simpl; [constructor|].
  apply insert_sorted_le. assumption.
Qed.

Lemma sorted_nodup_lt (l : list Z) :
  StronglySorted Z.le l -> NoDup l -> StronglySorted Z.lt l.
Proof.
  induction l as [|a l IH]; intros Hs Hn; [constructor|].
  inversion Hs as [|? ? Hl Ha]; subst. inversion Hn as [|? ? Hna Hnl]; subst.
  constructor; [auto|]. rewrite Forall_forall in *. intros y Hy.
  specialize (Ha y Hy). assert (y <> a) by (intros ->; contradiction). lia.
Qed.

Lemma periods_sorted_helper (demand : list DemandRow) :
  StronglySorted Z.lt (T demand) /\ NoDup (T demand).
Proof.
  assert (Hn : NoDup (T demand)).
  { unfold T. apply (Permutation_NoDup (l := unique Z.eqb (map Period demand))).
    - symmetry. apply sorted_perm.
    - apply unique_NoDup. apply Z.eqb_eq. }
  split; [|assumption]. apply sorted_nodup_lt; [|assumption].
  unfold T. apply sorted_le.
Qed.

(** X1.  [T], the periods the model is built over, is strictly increasing
    and holds exactly the periods of the demand records. *)
Theorem periods_increasing_and_exact (demand : list DemandRow) :
  StronglySorted Z.lt (T demand) /\
  (forall t, In t (T demand) <-> exists row, In row demand /\ Period row = t).
Proof.
  split; [|intros t; apply T_In].
  unfold T. apply sorted_nodup_lt; [apply sorted_le|].
  apply (Permutation_NoDup (l := unique Z.eqb (map Period demand))).
  - symmetry. apply sorted_perm.
  - apply unique_NoDup. apply Z.eqb_eq.
Qed.

(** The period before position [ti > 0] is strictly earlier. *)
Lemma strongly_sorted_nth (l : list Z) (i j : nat) :
  StronglySorted Z.lt l -> (i < j)%nat -> (j < List.length l)%nat ->
  (nth i l 0 < nth j l 0)%Z.
Proof.
  intros Hs. revert i j. induction Hs as [|a l Hs IH Ha]; simpl; intros i j Hij Hj.
  - lia.
  - destruct j as [|j]; [lia|]. destruct i as [|i].
    + rewrite Forall_forall in Ha. apply Ha. apply nth_In. lia.
    + apply IH; lia.
Qed.

(** X2.  The inventory carried into the period at position [ti > 0] is
    that of the latest demand period strictly before it: the mass balance
    reads [T[ti-1]], which is earlier than [T[ti]] with no demand period in
    between. *)
Theorem previous_period_is_predecessor (demand : list DemandRow) (ti : nat) :
  (0 < ti)%nat -> (ti < List.length (T demand))%nat ->
  In (nth (ti - 1) (T demand) 0%Z) (T demand) /\
  (nth (ti - 1) (T demand) 0 < nth ti (T demand) 0)%Z /\
  (forall row, In row demand ->
     ~ (nth (ti - 1) (T demand) 0 < Period row < nth ti (T demand) 0)%Z).
Proof.
  intros H0 Hti.
  destruct (periods_sorted_helper demand) as [Hs _].
  split; [apply nth_In; lia|]. split.
  - apply strongly_sorted_nth; [assumption | lia | assumption].
  - intros row Hr [H1 H2].
    assert (Hin : In (Period row) (T demand)) by (apply T_In; eauto).
    destruct (In_nth _ _ 0%Z Hin) as (k & Hk & Ek). rewrite <- Ek in H1, H2.
    destruct (Nat.lt_trichotomy k (ti - 1)) as [Hlt|[->|Hgt]].
    + pose proof (strongly_sorted_nth _ k (ti - 1) Hs Hlt ltac:(lia)). lia.
    + lia.
    + destruct (Nat.eq_dec k ti) as [->|Hne]; [lia|].
      pose proof (strongly_sorted_nth _ ti k Hs ltac:(lia) Hk). lia.
Qed.

Lemma previous_period_witness :
  In (nth (2 - 1) (T [mkDemand "C1" "W" 3 10; mkDemand "C1" "W" 1 10;
                      mkDemand "C1" "W" 7 10]) 0%Z)
     (T [mkDemand "C1" "W" 3 10; mkDemand "C1" "W" 1 10; mkDemand "C1" "W" 7 10])
  /\
  (nth (2 - 1) (T [mkDemand "C1" "W" 3 10; mkDemand "C1" "W" 1 10;
                   mkDemand "C1" "W" 7 10]) 0
   < nth 2 (T [mkDemand "C1" "W" 3 10; mkDemand "C1" "W" 1 10;
               mkDemand "C1" "W" 7 10]) 0)%Z.
Proof.
  destruct (previous_period_is_predecessor
              [mkDemand "C1" "W" 3 10; mkDemand "C1" "W" 1 10;
               mkDemand "C1" "W" 7 10] 2) as (H1 & H2 & _).
  - lia.
  - vm_compute; lia.
  - split; assumption.
Defined.

(** ** The variables of the formulation *)

Section Declared.
Variables (nodes : Nodes) (demand : list DemandRow) (lanes : PreppedLanes)
  (products : Products) (service_days carbon_price : float)
  (shut_nodes : list string).

Definition built_dicts : VarDicts :=
  mkVarDicts (flow_keys demand lanes products) (open_dc nodes)
             (inv_keys nodes demand products) (make_keys nodes demand products).

Lemma flow_at_declared i j p t v :
  flow_at demand lanes products i j p t = Ok v -> declared built_dicts v.
Proof.
  unfold flow_at. intros H. apply getitem_ok in H as [-> H].
  apply (mem_In _ key4_eqb_eq) in H. exact H.
Qed.

Lemma make_at_declared pl p t v :
  make_at nodes demand products pl p t = Ok v -> declared built_dicts v.
Proof.
  unfold make_at. intros H. apply getitem_ok in H as [-> H].
  apply (mem_In _ key3_eqb_eq) in H. exact H.
Qed.

Lemma inv_at_declared n p t v :
  inv_at nodes demand products n p t = Ok v -> declared built_dicts v.
Proof.
  unfold inv_at. intros H. apply getitem_ok in H as [-> H].
  apply (mem_In _ key3_eqb_eq) in H. exact H.
Qed.

Lemma open_at_declared d v :
  open_at nodes d = Ok v -> declared built_dicts v.
Proof.
  unfold open_at. intros H. apply getitem_ok in H as [-> H].
  apply (mem_In _ String.eqb_eq) in H. exact H.
Qed.

Ltac lookup_declared :=
  first [ eapply flow_at_declared; eassumption
        | eapply make_at_declared; eassumption
        | eapply inv_at_declared; eassumption
        | eapply open_at_declared; eassumption ].

Ltac terms_declared H :=
  eapply mapM_Forall; [|exact H];
  let x := fresh "x" in
  let y := fresh "y" in
  let Hy := fresh "Hy" in
  intros x y _ Hy; split_keys; simpl in Hy; inv_ok; simpl; lookup_declared.

Lemma declared_intro (ts1 ts2 : list (float * Var)) (s : LpSense) (c1 c2 : float) :
  Forall (fun t => declared built_dicts (snd t)) ts1 ->
  Forall (fun t => declared built_dicts (snd t)) ts2 ->
  Forall (declared built_dicts)
         (constraint_vars (mkConstraint (mkExpr ts1 c1) s (mkExpr ts2 c2))).
Proof.
  intros H1 H2. unfold constraint_vars, expr_vars; simpl.
  apply Forall_app; split; apply Forall_map; assumption.
Qed.

Lemma objective_declared obj :
  build_objective nodes demand lanes products carbon_price = Ok obj ->
  Forall (declared built_dicts) (expr_vars obj).
Proof.
  unfold build_objective. intros H. inv_ok. unfold expr_vars. simpl.
  apply Forall_map. repeat (apply Forall_app; split).
  - match goal with Hm : prod_cost _ _ _ = Ok _ |- _ =>
      unfold prod_cost in Hm; terms_declared Hm end.
  - match goal with Hm : wh_fixed _ = Ok _ |- _ =>
      unfold wh_fixed in Hm; terms_declared Hm end.
  - match goal with Hm : wh_hold _ _ _ = Ok _ |- _ =>
      unfold wh_hold in Hm; terms_declared Hm end.
  - match goal with Hm : trans_cost _ _ _ = Ok _ |- _ =>
      unfold trans_cost in Hm; terms_declared Hm end.
  - match goal with Hm : duty_cost _ _ _ = Ok _ |- _ =>
      unfold duty_cost in Hm; terms_declared Hm end.
  - match goal with Hm : carbon _ _ _ _ = Ok _ |- _ =>
      unfold carbon in Hm; terms_declared Hm end.
Qed.

Lemma shutdown_declared n c :
  In c (shutdown_spec nodes demand lanes products n) ->
  Forall (declared built_dicts) (constraint_vars c).
Proof.
  intros H. apply shutdown_spec_In in H
    as [[Hd ->]|(i & j & p & t & Hl & _ & Hp & Ht & ->)];
    unfold constraint_vars, expr_vars; simpl; repeat constructor.
  - apply (unique_In _ String.eqb_eq). assumption.
  - apply flow_keys_In. auto.
Qed.

Lemma capacity_declared cs :
  capacity_constraints nodes demand lanes products = Ok cs ->
  Forall (fun c => Forall (declared built_dicts) (constraint_vars c)) cs.
Proof.
  unfold capacity_constraints. intros H. inv_ok.
  apply Forall_forall. intros c Hc.
  match goal with
  | Hm : mapM _ _ = Ok _ |- _ =>
      apply (in_concat_mapM _ _ _ c Hm) in Hc as (n & ys & _ & Hn & Hy)
  end.
  unfold capacity_node in Hn. inv_ok.
  match goal with
  | H : match ?cap with Some _ => _ | None => _ end = Ok _ |- _ =>
      destruct cap as [cv|]; [destruct (truthy cv)|]
  end; inv_ok; try (destruct Hy; fail).
  match goal with
  | Hm : mapM _ (T demand) = Ok _ |- _ =>
      destruct (mapM_ok_in _ _ _ Hm _ Hy) as (t & _ & Ht)
  end.
  simpl in Ht. inv_ok. apply declared_intro; [|constructor].
  match goal with Hm : mapM _ _ = Ok _ |- _ => terms_declared Hm end.
Qed.

Lemma demand_declared cs :
  demand_constraints nodes demand lanes products = Ok cs ->
  Forall (fun c => Forall (declared built_dicts) (constraint_vars c)) cs.
Proof.
  unfold demand_constraints. intros H.
  eapply mapM_Forall; [|exact H]. intros row c _ Hc. simpl in Hc. inv_ok.
  apply declared_intro; [|constructor].
  match goal with Hm : mapM _ _ = Ok _ |- _ => terms_declared Hm end.
Qed.

Lemma service_declared cs :
  service_constraints nodes demand lanes products service_days = Ok cs ->
  Forall (fun c => Forall (declared built_dicts) (constraint_vars c)) cs.
Proof.
  unfold service_constraints. intros H.
  eapply mapM_Forall; [|exact H]. intros row c _ Hc. simpl in Hc. inv_ok.
  apply declared_intro; [|constructor].
  match goal with Hm : mapM _ _ = Ok _ |- _ => terms_declared Hm end.
Qed.

Lemma mass_balance_declared cs :
  mass_balance_constraints nodes demand lanes products = Ok cs ->
  Forall (fun c => Forall (declared built_dicts) (constraint_vars c)) cs.
Proof.
  unfold mass_balance_constraints. intros H.
  eapply mapM_Forall; [|exact H]. intros [[n p] [ti t]] c _ Hc.
  unfold mass_balance in Hc. inv_ok.
  assert (H0 : Forall (fun t => declared built_dicts (snd t)) a)
    by (match goal with Hm : mapM _ (inbound _ _ _) = Ok a |- _ =>
          terms_declared Hm end).
  assert (H1 : Forall (fun t => declared built_dicts (snd t)) a0)
    by (match goal with Hm : mapM _ (outbound _ _ _) = Ok a0 |- _ =>
          terms_declared Hm end).
  assert (H2 : Forall (fun t => declared built_dicts (snd t)) a1).
  { destruct (mem String.eqb n (PLT nodes)); inv_ok; [|assumption].
    apply Forall_app; split; [assumption|].
    repeat constructor; simpl; lookup_declared. }
  assert (H3 : Forall (fun t => declared built_dicts (snd t)) a2).
  { destruct (0 <? ti)%nat; inv_ok; repeat constructor; simpl; lookup_declared. }
  apply declared_intro; apply Forall_app; split; try assumption;
    repeat constructor; simpl; lookup_declared.
Qed.

Lemma bom_declared cs :
  bom_constraints nodes demand products = Ok cs ->
  Forall (fun c => Forall (declared built_dicts) (constraint_vars c)) cs.
Proof.
  unfold bom_constraints.
  destruct (has_BOM_Component products); intros H; inv_ok; [|constructor].
  apply Forall_forall. intros c Hc.
  match goal with
  | Hm : mapM _ _ = Ok _ |- _ =>
      apply (in_concat_mapM _ _ _ c Hm) in Hc as (row & ys & _ & Hr & Hy)
  end.
  unfold bom_product in Hr.
  destruct (BOM_Component row) as [parent|]; inv_ok; [|destruct Hy].
  match goal with
  | Hm : mapM _ _ = Ok ys |- _ =>
      destruct (mapM_ok_in _ _ _ Hm _ Hy) as ([pl t] & _ & Hc)
  end.
  simpl in Hc. inv_ok.
  apply declared_intro; repeat constructor; simpl; lookup_declared.
Qed.

Lemma build_body_declared mdl var :
  build_body nodes demand lanes products service_days carbon_price shut_nodes
  = Ok (mdl, var) ->
  var = built_dicts /\
  Forall (declared var) (expr_vars (objective mdl)) /\
  (forall c, In c (constraints mdl) -> Forall (declared var) (constraint_vars c)).
Proof.
  intros H. apply build_body_ok in H
    as (obj & c2 & c3 & c4 & c5 & c6 & Ho & H2 & H3 & H4 & H5 & H6 & -> & ->).
  split; [reflexivity|]. split; [exact (objective_declared _ Ho)|].
  intros c Hc. simpl in Hc. rewrite !in_app_iff in Hc.
  pose proof (capacity_declared _ H2) as D2.
  pose proof (demand_declared _ H3) as D3.
  pose proof (service_declared _ H4) as D4.
  pose proof (mass_balance_declared _ H5) as D5.
  pose proof (bom_declared _ H6) as D6.
  rewrite Forall_forall in D2, D3, D4, D5, D6.
  destruct Hc as [Hc|[Hc|[Hc|[Hc|[Hc|Hc]]]]]; auto.
  apply in_flat_map in Hc as (n & _ & Hc). exact (shutdown_declared _ _ Hc).
Qed.

End Declared.

Section Variables.
Context {ext : External}.

(** X3.  The dictionaries returned with the model have no repeated key,
    and their keys are: for [flow], every lane of the enriched table with
    every product and period; for [open], the DCs; for [make], every plant
    with every product and period; for [inv], every DC and plant with every
    product and period. *)
Theorem variable_dictionaries nodes demand lanes products sd ss cp shut
  mdl var pl :
  build_model nodes demand lanes products sd ss cp shut = Ok (mdl, var) ->
  _prep_lanes nodes lanes = Ok pl ->
  (NoDup (flow var) /\
   forall i j p t, In (i, j, p, t) (flow var) <->
     In (i, j) (lane_index pl) /\ In p (P products) /\ In t (T demand)) /\
  (NoDup (open var) /\ forall d, In d (open var) <-> In d (DC nodes)) /\
  (NoDup (make var) /\
   forall n p t, In (n, p, t) (make var) <->
     In n (PLT nodes) /\ In p (P products) /\ In t (T demand)) /\
  (NoDup (inv var) /\
   forall n p t, In (n, p, t) (inv var) <->
     (In n (DC nodes) \/ In n (PLT nodes)) /\ In p (P products) /\ In t (T demand)).
Proof.
  intros Hbm Hp.
  destruct (build_model_ok _ _ _ _ _ _ _ _ _ _ Hbm) as (pl' & Hp' & Hb).
  rewrite Hp in Hp'. injection Hp' as <-.
  destruct (build_body_ok _ _ _ _ _ _ _ _ _ Hb)
    as (obj & c2 & c3 & c4 & c5 & c6 & _ & _ & _ & _ & _ & _ & _ & ->).
  simpl. split; [|split; [|split]]; (split; [apply unique_NoDup|]).
  - apply key4_eqb_eq.
  - intros i j p t. apply flow_keys_In.
  - apply String.eqb_eq.
  - intros d. unfold open_dc. apply (unique_In _ String.eqb_eq).
  - apply key3_eqb_eq.
  - intros n p t. unfold make_keys. rewrite (unique_In _ key3_eqb_eq).
    apply in_for3.
  - apply key3_eqb_eq.
  - intros n p t. unfold inv_keys.
    rewrite (unique_In _ key3_eqb_eq), in_for3, in_app_iff. tauto.
Qed.

(** X4.  A returned formulation mentions declared variables only: every
    variable of the objective and of every constraint has its key in the
    dictionary of its kind. *)
Theorem formulation_uses_declared_variables nodes demand lanes products
  sd ss cp shut mdl var :
  build_model nodes demand lanes products sd ss cp shut = Ok (mdl, var) ->
  (forall v, In v (expr_vars (objective mdl)) -> declared var v) /\
  (forall c v, In c (constraints mdl) -> In v (constraint_vars c) ->
               declared var v).
Proof.
  intros Hbm.
  destruct (build_model_ok _ _ _ _ _ _ _ _ _ _ Hbm) as (pl & _ & Hb).
  destruct (build_body_declared _ _ _ _ _ _ _ _ _ Hb) as (_ & Ho & Hc).
  rewrite Forall_forall in Ho. split; [exact Ho|].
  intros c v Hin Hv. specialize (Hc c Hin). rewrite Forall_forall in Hc. auto.
Qed.

End Variables.

(** ** The constraints block by block *)

Lemma mapM_length {A B : Type} (f : A -> result B) (l : list A) (r : list B) :
  mapM f l = Ok r -> List.length r = List.length l.
Proof.
  revert r; induction l as [|a l IH]; simpl; intros r H.
  - injection H as <-; reflexivity.
  - destruct (f a); [|discriminate]. destruct (mapM f l); [|discriminate].
    injection H as <-; simpl. f_equal. apply IH. reflexivity.
Qed.

Lemma mapM_err_inv {A B : Type} (f : A -> result B) (l : list A) (e : PyError) :
  mapM f l = Err e -> exists x, In x l /\ f x = Err e.
Proof.
  induction l as [|a l IH]; simpl; intros H; [discriminate|].
  destruct (f a) as [y|e0] eqn:Ef.
  - destruct (mapM f l) as [ys|e1]; [discriminate|].
    injection H as ->. destruct (IH eq_refl) as (x & Hx & Hf). eauto.
  - injection H as ->. eauto.
Qed.

Lemma lane_rows_at_In (lanes : PreppedLanes) (k : string * string) (r : PreppedLane) :
  In r (lane_rows_at lanes k) <->
  In r (prepped_rows lanes) /\ (FromNode (lane r), ToNode (lane r)) = k.
Proof.
  unfold lane_rows_at. rewrite filter_In, pair_eqb_eq. tauto.
Qed.

Lemma lanes_loc_ok (lanes : PreppedLanes) k name present col d :
  lanes_loc lanes k name present col = Ok d ->
  present = true /\ exists r, lane_rows_at lanes k = [r] /\ d = col r.
Proof.
  unfold lanes_loc. destruct present; [|discriminate].
  destruct (lane_rows_at lanes k) as [|r [|r' rs]]; try discriminate.
  intros H; injection H as <-. eauto.
Qed.

(** A list whose every key selects exactly one element has distinct keys. *)
Lemma single_rows_NoDup {A K : Type} (key : A -> K) (eqb : K -> K -> bool)
  (eqb_eq : forall x y, eqb x y = true <-> x = y) (l : list A) :
  (forall a, In a l -> exists r, filter (fun x => eqb (key x) (key a)) l = [r]) ->
  NoDup (map key l).
Proof.
  induction l as [|a l IH]; intros H; [constructor|].
  assert (Eaa : eqb (key a) (key a) = true) by (apply eqb_eq; reflexivity).
  assert (Hnil : filter (fun x => eqb (key x) (key a)) l = []).
  { destruct (H a (or_introl eq_refl)) as (r & Hr). simpl in Hr.
    rewrite Eaa in Hr. injection Hr as _ Hr. exact Hr. }
  simpl. constructor.
  - intros Hin. apply in_map_iff in Hin as (b & Eb & Hb).
    assert (Hf : In b (filter (fun x => eqb (key x) (key a)) l))
      by (apply filter_In; split; [assumption | apply eqb_eq; assumption]).
    rewrite Hnil in Hf. destruct Hf.
  - apply IH. intros b Hb. destruct (H b (or_intror Hb)) as (r & Hr).
    simpl in Hr. destruct (eqb (key a) (key b)) eqn:E.
    + apply eqb_eq in E.
      assert (Hf : In b (filter (fun x => eqb (key x) (key a)) l))
        by (apply filter_In; split; [assumption | apply eqb_eq; auto]).
      rewrite Hnil in Hf. destruct Hf.
    + eauto.
Qed.

Section Senses.
Variables (nodes : Nodes) (demand : list DemandRow) (lanes : PreppedLanes)
  (products : Products) (service_days carbon_price : float)
  (shut_nodes : list string).

Lemma capacity_sense cs :
  capacity_constraints nodes demand lanes products = Ok cs ->
  Forall (fun c => sense c = LpConstraintLE) cs.
Proof.
  unfold capacity_constraints. intros H. inv_ok.
  apply Forall_forall. intros c Hc.
  match goal with
  | Hm : mapM _ _ = Ok _ |- _ =>
      apply (in_concat_mapM _ _ _ c Hm) in Hc as (n & ys & _ & Hn & Hy)
  end.
  unfold capacity_node in Hn. inv_ok.
  match goal with
  | H : match ?cap with Some _ => _ | None => _ end = Ok _ |- _ =>
      destruct cap as [cv|]; [destruct (truthy cv)|]
  end; inv_ok; try (destruct Hy; fail).
  match goal with
  | Hm : mapM _ (T demand) = Ok _ |- _ =>
      destruct (mapM_ok_in _ _ _ Hm _ Hy) as (t & _ & Ht)
  end.
  simpl in Ht. inv_ok. reflexivity.
Qed.

Lemma capacity_absent :
  has_Cap_Lbs_Per_Period nodes = false ->
  capacity_constraints nodes demand lanes products = Ok [].
Proof.
  intros Hc. unfold capacity_constraints.
  rewrite (mapM_total _ (fun _ => [])).
  - simpl. induction (PLT nodes ++ DC nodes); simpl; [reflexivity | assumption].
  - intros n _. unfold capacity_node, node_cap. rewrite Hc. reflexivity.
Qed.

Lemma demand_sense cs :
  demand_constraints nodes demand lanes products = Ok cs ->
  Forall (fun c => sense c = LpConstraintGE) cs.
Proof.
  unfold demand_constraints. intros H.
  eapply mapM_Forall; [|exact H]. intros row c _ Hc. simpl in Hc. inv_ok.
  reflexivity.
Qed.

Lemma service_sense cs :
  service_constraints nodes demand lanes products service_days = Ok cs ->
  Forall (fun c => sense c = LpConstraintLE) cs /\
  List.length cs = List.length demand.
Proof.
  unfold service_constraints. intros H. split; [|exact (mapM_length _ _ _ H)].
  eapply mapM_Forall; [|exact H]. intros row c _ Hc. simpl in Hc. inv_ok.
  reflexivity.
Qed.

Lemma mass_balance_not_fixing cs :
  mass_balance_constraints nodes demand lanes products = Ok cs ->
  Forall (fun c => sense c = LpConstraintEQ /\ is_fixing c = false) cs.
Proof.
  unfold mass_balance_constraints. intros H.
  eapply mapM_Forall; [|exact H]. intros [[n p] [ti t]] c _ Hc.
  unfold mass_balance in Hc. inv_ok. split; [reflexivity|].
  unfold is_fixing; simpl. destruct a1; reflexivity.
Qed.

Lemma bom_sense cs :
  bom_constraints nodes demand products = Ok cs ->
  Forall (fun c => sense c = LpConstraintGE) cs.
Proof.
  unfold bom_constraints.
  destruct (has_BOM_Component products); intros H; inv_ok; [|constructor].
  apply Forall_forall. intros c Hc.
  match goal with
  | Hm : mapM _ _ = Ok _ |- _ =>
      apply (in_concat_mapM _ _ _ c Hm) in Hc as (row & ys & _ & Hr & Hy)
  end.
  unfold bom_product in Hr.
  destruct (BOM_Component row) as [parent|]; inv_ok; [|destruct Hy].
  match goal with
  | Hm : mapM _ _ = Ok ys |- _ =>
      destruct (mapM_ok_in _ _ _ Hm _ Hy) as ([pl t] & _ & Hc)
  end.
  simpl in Hc. inv_ok. reflexivity.
Qed.

Lemma shutdown_sense n c :
  In c (shutdown_spec nodes demand lanes products n) -> sense c = LpConstraintEQ.
Proof.
  intros H. apply shutdown_spec_In in H
    as [[_ ->]|(i & j & p & t & _ & _ & _ & _ & ->)]; reflexivity.
Qed.

End Senses.

Section Constraints.
Context {ext : External}.

(** What a successful [build_model] is made of. *)
Lemma build_model_blocks nodes demand lanes products sd ss cp shut mdl var pl :
  build_model nodes demand lanes products sd ss cp shut = Ok (mdl, var) ->
  _prep_lanes nodes lanes = Ok pl ->
  exists obj c2 c3 c4 c5 c6,
    build_objective nodes demand pl products cp = Ok obj /\
    capacity_constraints nodes demand pl products = Ok c2 /\
    demand_constraints nodes demand pl products = Ok c3 /\
    service_constraints nodes demand pl products sd = Ok c4 /\
    mass_balance_constraints nodes demand pl products = Ok c5 /\
    bom_constraints nodes demand products = Ok c6 /\
    mdl = mkProblem obj
            (flat_map (shutdown_spec nodes demand pl products) (shut_set shut)
             ++ c2 ++ c3 ++ c4 ++ c5 ++ c6).
Proof.
  intros Hbm Hp.
  destruct (build_model_ok _ _ _ _ _ _ _ _ _ _ Hbm) as (pl' & Hp' & Hb).
  rewrite Hp in Hp'. injection Hp' as <-.
  destruct (build_body_ok _ _ _ _ _ _ _ _ _ Hb)
    as (obj & c2 & c3 & c4 & c5 & c6 & H1 & H2 & H3 & H4 & H5 & H6 & Em & _).
  exists obj, c2, c3, c4, c5, c6. auto 10.
Qed.

(** X5.  For every demand record the formulation has the fulfilment
    constraint: the flows of that product and period on all lanes of the
    enriched table into the customer sum to at least the demand.  When the
    customer has an inbound lane, the record's product is a product of the
    product table. *)
Theorem demand_constraint_present nodes demand lanes products sd ss cp shut
  mdl var pl row :
  build_model nodes demand lanes products sd ss cp shut = Ok (mdl, var) ->
  _prep_lanes nodes lanes = Ok pl ->
  In row demand ->
  In (mkConstraint
        (lpSum (map (fun i => (1%float, F i (CustomerID row)
                                          (DemandProductID row) (Period row)))
                    (inbound nodes pl (CustomerID row))))
        LpConstraintGE (num (DemandLbs row)))
     (constraints mdl) /\
  (forall i, In i (inbound nodes pl (CustomerID row)) <->
             In (i, CustomerID row) (lane_index pl)) /\
  (inbound nodes pl (CustomerID row) <> [] ->
   In (DemandProductID row) (P products)).
Proof.
  intros Hbm Hp Hr.
  destruct (build_model_blocks _ _ _ _ _ _ _ _ _ _ _ Hbm Hp)
    as (obj & c2 & c3 & c4 & c5 & c6 & _ & _ & H3 & _ & _ & _ & ->).
  unfold demand_constraints in H3.
  destruct (mapM_ok_all _ _ _ H3 _ Hr) as (c & Hc & Hin).
  simpl in Hc. apply bind_ok in Hc as (ts & Hts & Hc). injection Hc as <-.
  assert (Ets : ts = map (fun i => (1%float, F i (CustomerID row)
                                       (DemandProductID row) (Period row)))
                         (inbound nodes pl (CustomerID row))).
  { eapply mapM_ok_eq; [|exact Hts].
    intros x y _ Hy; simpl in Hy; inv_ok; var_ok; reflexivity. }
  subst ts. split; [|split].
  - simpl. rewrite !in_app_iff. auto.
  - intros i. apply (inbound_iff _ _ _ _ _ Hp).
  - intros Hne. destruct (inbound nodes pl (CustomerID row)) as [|i l] eqn:E;
      [congruence|].
    destruct (mapM_ok_all _ _ _ Hts i (or_introl eq_refl)) as (y & Hy & _).
    apply bind_ok in Hy as (v & Hv & _). apply flow_at_ok in Hv. tauto.
Qed.

(** X6.  For every demand record the formulation has the service-time
    constraint: over the lanes of the enriched table into the customer,
    flow times the lane's TransitDays sums to at most demand times
    [service_days]. *)
Theorem service_constraint_present nodes demand lanes products sd ss cp shut
  mdl var pl row :
  build_model nodes demand lanes products sd ss cp shut = Ok (mdl, var) ->
  _prep_lanes nodes lanes = Ok pl ->
  In row demand ->
  exists ts,
    In (mkConstraint (lpSum ts) LpConstraintLE
                     (num (DemandLbs row * sd)%float))
       (constraints mdl) /\
    map snd ts
    = map (fun i => F i (CustomerID row) (DemandProductID row) (Period row))
          (inbound nodes pl (CustomerID row)) /\
    (forall d v, In (d, v) ts ->
       exists r, In r (prepped_rows pl) /\
                 ToNode (lane r) = CustomerID row /\
                 v = F (FromNode (lane r)) (CustomerID row)
                       (DemandProductID row) (Period row) /\
                 d = TransitDays (lane r)).
Proof.
  intros Hbm Hp Hr.
  destruct (build_model_blocks _ _ _ _ _ _ _ _ _ _ _ Hbm Hp)
    as (obj & c2 & c3 & c4 & c5 & c6 & _ & _ & _ & H4 & _ & _ & ->).
  unfold service_constraints in H4.
  destruct (mapM_ok_all _ _ _ H4 _ Hr) as (c & Hc & Hin).
  simpl in Hc. apply bind_ok in Hc as (ts & Hts & Hc). injection Hc as <-.
  exists ts. split; [|split].
  - simpl. rewrite !in_app_iff. auto 10.
  - eapply mapM_ok_map; [|exact Hts].
    intros x y _ Hy; simpl in Hy; inv_ok; var_ok; reflexivity.
  - intros d v Hin'.
    destruct (mapM_ok_in _ _ _ Hts _ Hin') as (i & _ & Hi).
    apply bind_ok in Hi as (v' & Hv & Hi). apply bind_ok in Hi as (d' & Hd & Hi).
    injection Hi as -> ->. apply flow_at_ok in Hv as [-> _].
    apply lanes_loc_ok in Hd as (_ & r & Hrows & ->).
    assert (Hin2 : In r (lane_rows_at pl (i, CustomerID row)))
      by (rewrite Hrows; simpl; auto).
    apply lane_rows_at_In in Hin2 as [Hin2 Ek]. injection Ek as Ei Ec.
    exists r. rewrite Ei. auto.
Qed.

(** X7.  A plant or DC whose capacity cell is a truthy number gets, for
    every period, the constraint that the flows of all products on all
    lanes of the enriched table into it sum to at most that capacity. *)
Theorem capacity_constraint_present nodes demand lanes products sd ss cp shut
  mdl var pl n c t :
  build_model nodes demand lanes products sd ss cp shut = Ok (mdl, var) ->
  _prep_lanes nodes lanes = Ok pl ->
  In n (PLT nodes ++ DC nodes) ->
  node_cap nodes n = Ok (Some c) -> truthy c = true ->
  In t (T demand) ->
  In (mkConstraint
        (lpSum (map (fun ip => (1%float, F (fst ip) n (snd ip) t))
                    (for2 (inbound nodes pl n) (P products))))
        LpConstraintLE (num c))
     (constraints mdl).
Proof.
  intros Hbm Hp Hn Hcap Htr Ht.
  destruct (build_model_blocks _ _ _ _ _ _ _ _ _ _ _ Hbm Hp)
    as (obj & c2 & c3 & c4 & c5 & c6 & _ & H2 & _ & _ & _ & _ & ->).
  unfold capacity_constraints in H2. apply bind_ok in H2 as (css & Hcss & H2).
  injection H2 as <-.
  simpl. rewrite !in_app_iff. right. left.
  apply (in_concat_mapM _ _ _ _ Hcss).
  destruct (mapM_ok_all _ _ _ Hcss _ Hn) as (ys & Hys & _).
  exists n, ys. split; [assumption|]. split; [assumption|].
  unfold capacity_node in Hys. rewrite Hcap in Hys. simpl in Hys.
  rewrite Htr in Hys.
  destruct (mapM_ok_all _ _ _ Hys _ Ht) as (y & Hy & Hin).
  apply bind_ok in Hy as (ts & Hts & Hy). injection Hy as <-.
  assert (Ets : ts = map (fun ip => (1%float, F (fst ip) n (snd ip) t))
                         (for2 (inbound nodes pl n) (P products))).
  { eapply mapM_ok_eq; [|exact Hts].
    intros [i p] y _ Hy; simpl in Hy; inv_ok; var_ok; reflexivity. }
  subst ts. assumption.
Qed.

(** X8.  When the node table has no column Cap_Lbs_Per_Period the
    formulation has no capacity constraint: its [<=] constraints are the
    service-time constraints, one per demand record. *)
Theorem no_capacity_column_no_capacity_constraint nodes demand lanes products
  sd ss cp shut mdl var :
  build_model nodes demand lanes products sd ss cp shut = Ok (mdl, var) ->
  has_Cap_Lbs_Per_Period nodes = false ->
  List.length (le_constraints mdl) = List.length demand /\
  (forall c, In c (le_constraints mdl) ->
     exists row, In row demand /\ rhs c = num (DemandLbs row * sd)%float).
Proof.
  intros Hbm Hc.
  destruct (build_model_ok _ _ _ _ _ _ _ _ _ _ Hbm) as (pl & Hp & _).
  destruct (build_model_blocks _ _ _ _ _ _ _ _ _ _ _ Hbm Hp)
    as (obj & c2 & c3 & c4 & c5 & c6 & _ & H2 & H3 & H4 & H5 & H6 & ->).
  rewrite (capacity_absent _ _ _ _ Hc) in H2. injection H2 as <-.
  assert (Hfilter : le_constraints
                      (mkProblem obj
                         (flat_map (shutdown_spec nodes demand pl products)
                                   (shut_set shut)
                          ++ [] ++ c3 ++ c4 ++ c5 ++ c6)) = c4).
  { unfold le_constraints. simpl. rewrite !filter_app.
    assert (Hnone : forall cs, Forall (fun c => sense c <> LpConstraintLE) cs ->
              filter (fun c => match sense c with
                               | LpConstraintLE => true | _ => false end) cs = []).
    { intros cs Hf. apply filter_nil. rewrite Forall_forall in Hf.
      intros c Hin. specialize (Hf c Hin). destruct (sense c); congruence. }
    rewrite (Hnone (flat_map _ _)), (Hnone c3), (Hnone c5), (Hnone c6).
    - simpl. rewrite app_nil_r.
      destruct (service_sense _ _ _ _ _ _ H4) as [Hs _].
      clear -Hs. induction Hs as [|c l Hc Hl IH]; simpl; [reflexivity|].
      rewrite Hc, IH. reflexivity.
    - eapply Forall_impl; [|exact (bom_sense _ _ _ _ H6)].
      intros c E; rewrite E; discriminate.
    - eapply Forall_impl; [|exact (mass_balance_not_fixing _ _ _ _ _ H5)].
      intros c [E _]; rewrite E; discriminate.
    - eapply Forall_impl; [|exact (demand_sense _ _ _ _ _ H3)].
      intros c E; rewrite E; discriminate.
    - apply Forall_forall. intros c Hin.
      apply in_flat_map in Hin as (n & _ & Hin).
      rewrite (shutdown_sense _ _ _ _ _ _ Hin). discriminate. }
  rewrite Hfilter. split; [exact (proj2 (service_sense _ _ _ _ _ _ H4))|].
  intros c Hin. unfold service_constraints in H4.
  destruct (mapM_ok_in _ _ _ H4 _ Hin) as (row & Hr & Hrow).
  simpl in Hrow. apply bind_ok in Hrow as (ts & _ & Hrow). injection Hrow as <-.
  exists row. auto.
Qed.

(** X9.  When the product table has the column BOM_Component, every
    product with a BOM parent gets, for every plant and period, the
    constraint that the parent's production times the ratio is at least the
    product's production; and then the parent is a product of the table. *)
Theorem bom_constraint_present nodes demand lanes products sd ss cp shut
  mdl dicts row parent pl t :
  build_model nodes demand lanes products sd ss cp shut = Ok (mdl, dicts) ->
  has_BOM_Component products = true ->
  In row (product_rows products) -> BOM_Component row = Some parent ->
  In pl (PLT nodes) -> In t (T demand) ->
  In (mkConstraint (lpSum [(InputLB_per_OutputLB row, Make pl parent t)])
                   LpConstraintGE (var (Make pl (ProductID row) t)))
     (constraints mdl) /\
  In parent (P products) /\
  has_InputLB_per_OutputLB products = true.
Proof.
  intros Hbm Hb Hr Hpar Hpl Ht.
  destruct (build_model_ok _ _ _ _ _ _ _ _ _ _ Hbm) as (lp & Hp & _).
  destruct (build_model_blocks _ _ _ _ _ _ _ _ _ _ _ Hbm Hp)
    as (obj & c2 & c3 & c4 & c5 & c6 & _ & _ & _ & _ & _ & H6 & ->).
  unfold bom_constraints in H6. rewrite Hb in H6.
  apply bind_ok in H6 as (css & Hcss & H6). injection H6 as <-.
  destruct (mapM_ok_all _ _ _ Hcss _ Hr) as (ys & Hys & Hin).
  unfold bom_product in Hys. rewrite Hpar in Hys.
  destruct (has_InputLB_per_OutputLB products); [|discriminate].
  simpl in Hys.
  assert (Hk : In (pl, t) (for2 (PLT nodes) (T demand))).
  { unfold for2. apply in_flat_map. exists pl. split; [assumption|].
    apply in_map. assumption. }
  destruct (mapM_ok_all _ _ _ Hys _ Hk) as (y & Hy & Hiny).
  simpl in Hy. apply bind_ok in Hy as (vp & Hvp & Hy).
  apply bind_ok in Hy as (vc & Hvc & Hy). injection Hy as <-.
  pose proof Hvp as Hvp'. unfold make_at in Hvp'.
  apply getitem_ok in Hvp' as [_ Hmem].
  apply (mem_In _ key3_eqb_eq) in Hmem. unfold make_keys in Hmem.
  apply (proj1 (unique_In _ key3_eqb_eq _ _)) in Hmem.
  apply in_for3 in Hmem as (_ & Hpp & _).
  apply make_at_ok in Hvp, Hvc. subst vp vc.
  split; [|auto].
  simpl. rewrite !in_app_iff. do 5 right.
  apply in_concat. exists ys. auto.
Qed.

(** X10.  The equality constraints of a returned formulation are the
    shutdown rows and the mass balances, and nothing else: an equality
    constraint is either the row [1*open[n] + 0 == 0] of a forced-closed DC
    [n], or the row [1*flow[i,j,p,t] + 0 == 0] of a lane of the enriched
    table that touches a forced-closed node [n], or the mass balance of a
    plant or DC, a product and a period. *)
Theorem equality_constraints_classified nodes demand lanes products sd ss cp
  shut mdl var pl c :
  build_model nodes demand lanes products sd ss cp shut = Ok (mdl, var) ->
  _prep_lanes nodes lanes = Ok pl ->
  In c (constraints mdl) -> sense c = LpConstraintEQ ->
  (exists n, In n (shut_set shut) /\
     ((In n (DC nodes) /\
       c = mkConstraint (mkExpr [(1%float, Open n)] 0%float) LpConstraintEQ
             (mkExpr [] 0%float)) \/
      (exists i j p t,
          In (i, j) (lane_index pl) /\ (i = n \/ j = n) /\
          In p (P products) /\ In t (T demand) /\
          c = mkConstraint (mkExpr [(1%float, F i j p t)] 0%float)
                LpConstraintEQ (mkExpr [] 0%float)))) \/
  (exists n p ti,
      In n (DC nodes ++ PLT nodes) /\ In p (P products) /\
      (ti < List.length (T demand))%nat /\
      c = mass_balance_spec nodes demand pl n p ti).
Proof.
  intros Hbm Hp Hin Hs.
  destruct (build_model_blocks _ _ _ _ _ _ _ _ _ _ _ Hbm Hp)
    as (obj & c2 & c3 & c4 & c5 & c6 & _ & H2 & H3 & H4 & H5 & H6 & ->).
  simpl in Hin. rewrite !in_app_iff in Hin.
  assert (Hsense : forall cs s, s <> LpConstraintEQ ->
            Forall (fun c => sense c = s) cs -> In c cs -> False).
  { intros cs s Hne Hf Hi. rewrite Forall_forall in Hf.
    specialize (Hf _ Hi). congruence. }
  destruct Hin as [Hin|[Hin|[Hin|[Hin|[Hin|Hin]]]]].
  - left. apply in_flat_map in Hin as (n & Hn & Hin). exists n.
    split; [assumption|].
    apply shutdown_spec_In in Hin
      as [[Hd ->]|(i & j & p & t & Hl & Ht & Hpp & Htt & ->)].
    + left. split; [assumption | reflexivity].
    + right. exists i, j, p, t. repeat split; auto.
  - destruct (Hsense c2 LpConstraintLE ltac:(discriminate)
                (capacity_sense _ _ _ _ _ H2) Hin).
  - destruct (Hsense c3 LpConstraintGE ltac:(discriminate)
                (demand_sense _ _ _ _ _ H3) Hin).
  - destruct (Hsense c4 LpConstraintLE ltac:(discriminate)
                (proj1 (service_sense _ _ _ _ _ _ H4)) Hin).
  - right. unfold mass_balance_constraints in H5.
    destruct (mapM_ok_in _ _ _ H5 _ Hin) as ([[n p] [ti t]] & Hk & Hc).
    apply in_for3 in Hk as (Hn & Hpp & Hti).
    apply (enumerate_In _ 0%Z) in Hti as [Hlt ->].
    apply mass_balance_ok in Hc. exists n, p, ti. auto.
  - destruct (Hsense c6 LpConstraintGE ltac:(discriminate)
                (bom_sense _ _ _ _ H6) Hin).
Qed.

(** X11.  With duplicate lane keys in the enriched table, a product and a
    period, [build_model] raises: a formulation is returned only when the
    (origin, destination) keys of the enriched table are distinct. *)
Theorem built_model_has_unique_lane_keys nodes demand lanes products
  sd ss cp shut mdl var pl :
  build_model nodes demand lanes products sd ss cp shut = Ok (mdl, var) ->
  _prep_lanes nodes lanes = Ok pl ->
  product_rows products <> [] -> demand <> [] ->
  NoDup (lane_index pl).
Proof.
  intros Hbm Hp Hpr Hd.
  destruct (build_model_blocks _ _ _ _ _ _ _ _ _ _ _ Hbm Hp)
    as (obj & c2 & c3 & c4 & c5 & c6 & Ho & _).
  unfold build_objective in Ho. inv_ok.
  destruct (product_rows products) as [|pr prs] eqn:Ep; [congruence|].
  destruct demand as [|row rows] eqn:Ed; [congruence|]. rewrite <- Ed in *.
  assert (Hpp : In (ProductID pr) (P products))
    by (unfold P; rewrite Ep; simpl; auto).
  assert (Ht : In (Period row) (T demand))
    by (apply T_In; exists row; rewrite Ed; simpl; auto).
  unfold lane_index.
  apply (single_rows_NoDup
           (fun r => (FromNode (lane r), ToNode (lane r))) pair_eqb pair_eqb_eq).
  intros r Hr.
  match goal with
  | Hm : trans_cost _ _ _ = Ok _ |- _ => unfold trans_cost in Hm;
      destruct (mapM_ok_all _ _ _ Hm
                  ((FromNode (lane r), ToNode (lane r)), ProductID pr, Period row))
        as (y & Hy & _)
  end.
  { apply in_for3. split; [|auto]. unfold lane_index.
    apply (in_map (fun r => (FromNode (lane r), ToNode (lane r)))). assumption. }
  cbv beta iota zeta in Hy. apply bind_ok in Hy as (v & _ & Hy).
  apply bind_ok in Hy as (c & _ & Hy). apply bind_ok in Hy as (d & Hdist & _).
  apply lanes_loc_ok in Hdist as (_ & r' & Hrows & _).
  exists r'. exact Hrows.
Qed.

(** X13.  Cost columns the node table lacks count as zero: without
    FixedCost every objective term on an [open] variable has coefficient 0,
    and without VarCost_per_lb every objective term on a [make] or [inv]
    variable has coefficient 0. *)
Theorem missing_cost_columns_are_zero nodes demand lanes products sd ss cp
  shut mdl var :
  build_model nodes demand lanes products sd ss cp shut = Ok (mdl, var) ->
  (has_FixedCost nodes = false ->
   forall c d, In (c, Open d) (terms (objective mdl)) -> c = 0%float) /\
  (has_VarCost_per_lb nodes = false ->
   forall c v, In (c, v) (terms (objective mdl)) ->
     (exists n p t, v = Make n p t \/ v = Inv n p t) -> c = 0%float).
Proof.
  intros Hbm.
  destruct (build_model_ok _ _ _ _ _ _ _ _ _ _ Hbm) as (pl & Hp & _).
  destruct (build_model_blocks _ _ _ _ _ _ _ _ _ _ _ Hbm Hp)
    as (obj & c2 & c3 & c4 & c5 & c6 & Ho & _ & _ & _ & _ & _ & ->).
  simpl. split.
  - intros Hf c d Hin.
    destruct (build_objective_open _ _ _ _ _ _ _ _ Ho Hin) as [_ Hn].
    unfold node_fixed in Hn. rewrite Hf in Hn. injection Hn as <-. reflexivity.
  - intros Hv c v Hin (n & p & t & Hk).
    unfold build_objective in Ho. inv_ok. simpl in Hin.
    repeat rewrite in_app_iff in Hin.
    assert (Hflow : forall (A : Type) (f : A -> result (float * Var)) l r,
               mapM f l = Ok r ->
               (forall x y, In x l -> f x = Ok y ->
                  exists i j p t, snd y = F i j p t) ->
               ~ In (c, v) r).
    { intros A f l r Hm Hf Hi.
      destruct (mapM_ok_in _ _ _ Hm _ Hi) as (x & Hx & Hfx).
      destruct (Hf x _ Hx Hfx) as (i & j & p' & t' & Ey). simpl in Ey.
      destruct Hk as [->| ->]; discriminate. }
    assert (Hzero : forall (A : Type) (f : A -> result (float * Var)) l r,
               mapM f l = Ok r ->
               (forall x y, In x l -> f x = Ok y -> fst y = 0%float) ->
               In (c, v) r -> c = 0%float).
    { intros A f l r Hm Hf Hi.
      destruct (mapM_ok_in _ _ _ Hm _ Hi) as (x & Hx & Hfx).
      exact (Hf x _ Hx Hfx). }
    destruct Hin as [[[[[Hin|Hin]|Hin]|Hin]|Hin]|Hin].
    + revert Hin. eapply Hzero; [eassumption|].
      intros x y _ Hy; split_keys; simpl in Hy; inv_ok.
      match goal with
      | Hn : node_var _ _ = Ok _ |- _ =>
          unfold node_var in Hn; rewrite Hv in Hn; injection Hn as <-
      end. reflexivity.
    + exfalso. match goal with
      | Hm : wh_fixed _ = Ok _ |- _ => unfold wh_fixed in Hm;
          destruct (mapM_ok_in _ _ _ Hm _ Hin) as (x & _ & Hfx)
      end.
      simpl in Hfx. inv_ok. var_ok. destruct Hk as [Hk|Hk]; discriminate.
    + revert Hin. eapply Hzero; [eassumption|].
      intros x y _ Hy; split_keys; simpl in Hy; inv_ok.
      match goal with
      | Hn : node_var _ _ = Ok _ |- _ =>
          unfold node_var in Hn; rewrite Hv in Hn; injection Hn as <-
      end. reflexivity.
    + exfalso. revert Hin. eapply Hflow; [eassumption|].
      intros x y _ Hy; split_keys; simpl in Hy; inv_ok; var_ok; simpl; eauto.
    + exfalso. revert Hin. eapply Hflow; [eassumption|].
      intros x y _ Hy; split_keys; simpl in Hy; inv_ok; var_ok; simpl; eauto.
    + exfalso. revert Hin. eapply Hflow; [eassumption|].
      intros x y _ Hy; split_keys; simpl in Hy; inv_ok; var_ok; simpl; eauto.
Qed.

End Constraints.

(** ** The extracted result *)

Lemma NoDup_map_filter {A B : Type} (f : A -> B) (keep : A -> bool) (l : list A) :
  NoDup (map f l) -> NoDup (map f (filter keep l)).
Proof.
  induction l as [|a l IH]; simpl; intros H; [constructor|].
  inversion H as [|? ? Hn Hl]; subst.
  destruct (keep a); simpl; [|auto]. constructor; [|auto].
  intros Hin. apply Hn. apply in_map_iff in Hin as (x & E & Hx).
  apply filter_In in Hx as [Hx _]. apply in_map_iff. eauto.
Qed.

Lemma flow_table_keys (sol : Solution) (keys : list (string * string * string * Z)) :
  NoDup keys ->
  NoDup (map record_key (flow_table sol keys)) /\
  (forall k, In k (map record_key (flow_table sol keys)) -> In k keys).
Proof.
  intros Hn.
  assert (Hsub : forall ks k,
             In k (map record_key (flow_table sol ks)) -> In k ks).
  { intros ks k Hin. apply in_map_iff in Hin as ([i j p t x] & <- & Hr).
    apply flow_table_In in Hr. unfold record_key; simpl. tauto. }
  split; [|apply Hsub].
  induction Hn as [|k ks Hk Hn IH]; simpl; [constructor|].
  destruct k as [[[i j] p] t]. rewrite map_app.
  destruct (flow_shown (sol (F i j p t))); simpl; [|assumption].
  constructor; [|assumption]. intros Hin. apply Hk. apply Hsub. assumption.
Qed.

Lemma open_table_spec (sol : Solution) (keys l : list string) :
  open_table sol keys = Ok l ->
  (forall d, In d l <->
     In d keys /\ exists x, sol (Open d) = Some x /\ (0.5 <? x)%float = true) /\
  (NoDup keys -> NoDup l).
Proof.
  intros H. split.
  - intros d. split; [apply (open_table_In _ _ _ _ H)|].
    intros (Hk & x & Ex & Hx). unfold open_table in H.
    apply bind_ok in H as (bs & Hm & H). injection H as <-.
    destruct (mapM_ok_all _ _ _ Hm _ Hk) as (y & Hy & Hin).
    unfold open_shown in Hy. rewrite Ex in Hy. simpl in Hy. injection Hy as <-.
    apply in_map_iff. exists (d, (0.5 <? x)%float). split; [reflexivity|].
    apply filter_In. simpl. auto.
  - intros Hn. unfold open_table in H.
    apply bind_ok in H as (bs & Hm & H). injection H as <-.
    apply NoDup_map_filter.
    assert (E : map fst bs = map (fun d => d) keys).
    { eapply mapM_ok_map; [|exact Hm].
      intros x y _ Hy. apply bind_ok in Hy as (b & _ & Hy).
      injection Hy as <-. reflexivity. }
    rewrite E, map_id. assumption.
Qed.

Section Result.
Context {ext : External}.

(** X14.  In the result of an optimal run, [open_dc] lists, without
    repetition, exactly the DCs whose [open] variable has a solved value
    above 0.5. *)
Theorem open_dc_iff_above_half nodes demand lanes products sd ss cp shut
  mdl var status res :
  build_model nodes demand lanes products sd ss cp shut = Ok (mdl, var) ->
  outcome (solve_and_extract nodes demand lanes products sd ss cp shut)
  = Ok (status, Some res) ->
  (forall d, In d (res_open_dc res) <->
     In d (DC nodes) /\
     exists x, snd (cbc_solve mdl) (Open d) = Some x /\ (0.5 <? x)%float = true) /\
  NoDup (res_open_dc res).
Proof.
  intros Hbm Hr.
  destruct (solve_and_extract_optimal _ _ _ _ _ _ _ _ _ _ _ _ Hbm Hr)
    as (_ & _ & Eo).
  destruct (build_model_ok _ _ _ _ _ _ _ _ _ _ Hbm) as (pl & _ & Hb).
  destruct (build_body_ok _ _ _ _ _ _ _ _ _ Hb)
    as (obj & c2 & c3 & c4 & c5 & c6 & _ & _ & _ & _ & _ & _ & _ & Ev).
  rewrite Ev in Eo. simpl in Eo.
  destruct (open_table_spec _ _ _ Eo) as [Hiff Hnd]. split.
  - intros d. rewrite Hiff. unfold open_dc.
    rewrite (unique_In _ String.eqb_eq). tauto.
  - apply Hnd. apply unique_NoDup. apply String.eqb_eq.
Qed.

(** X15.  The test [v.varValue > 0.5] has no guard for a missing value:
    when the status is Optimal and the [open] variable of some DC has no
    value, [solve_and_extract] raises TypeError instead of returning. *)
Theorem open_without_value_raises nodes demand lanes products sd ss cp shut
  mdl var d :
  build_model nodes demand lanes products sd ss cp shut = Ok (mdl, var) ->
  LpStatus (fst (cbc_solve mdl)) = "Optimal"%string ->
  In d (DC nodes) ->
  snd (cbc_solve mdl) (Open d) = None ->
  outcome (solve_and_extract nodes demand lanes products sd ss cp shut)
  = Err TypeError.
Proof.
  intros Hbm Hs Hd Hv.
  destruct (build_model_ok _ _ _ _ _ _ _ _ _ _ Hbm) as (pl & _ & Hb).
  destruct (build_body_ok _ _ _ _ _ _ _ _ _ Hb)
    as (obj & c2 & c3 & c4 & c5 & c6 & _ & _ & _ & _ & _ & _ & _ & Ev).
  unfold solve_and_extract. rewrite Hbm.
  destruct (cbc_solve mdl) as [code sol]. simpl in *.
  rewrite Hs. simpl. rewrite Ev. simpl.
  assert (He : open_table sol (open_dc nodes) = Err TypeError).
  { unfold open_table.
    destruct (mapM (fun d0 => Py.bind (open_shown (sol (Open d0)))
                                (fun b => Ok (d0, b))) (open_dc nodes))
      as [bs|e] eqn:Em.
    - assert (Hk : In d (open_dc nodes))
        by (apply (unique_In _ String.eqb_eq); assumption).
      destruct (mapM_ok_all _ _ _ Em _ Hk) as (y & Hy & _).
      rewrite Hv in Hy. discriminate.
    - apply mapM_err_inv in Em as (x & _ & Hx).
      destruct (sol (Open x)); simpl in Hx; [discriminate|].
      injection Hx as <-. reflexivity. }
  rewrite He. reflexivity.
Qed.

(** X16.  The flow table of an optimal run has at most one record for a
    key (From, To, Product, Period), and every record's key is a key of a
    flow variable. *)
Theorem flow_table_one_record_per_key nodes demand lanes products sd ss cp
  shut mdl var status res :
  build_model nodes demand lanes products sd ss cp shut = Ok (mdl, var) ->
  outcome (solve_and_extract nodes demand lanes products sd ss cp shut)
  = Ok (status, Some res) ->
  NoDup (map record_key (res_flow res)) /\
  (forall r, In r (res_flow res) -> In (record_key r) (flow var)).
Proof.
  intros Hbm Hr.
  destruct (solve_and_extract_optimal _ _ _ _ _ _ _ _ _ _ _ _ Hbm Hr)
    as (_ & -> & _).
  destruct (build_model_ok _ _ _ _ _ _ _ _ _ _ Hbm) as (pl & _ & Hb).
  destruct (build_body_ok _ _ _ _ _ _ _ _ _ Hb)
    as (obj & c2 & c3 & c4 & c5 & c6 & _ & _ & _ & _ & _ & _ & _ & ->).
  simpl.
  destruct (flow_table_keys (snd (cbc_solve mdl)) (flow_keys demand pl products))
    as [H1 H2].
  - apply unique_NoDup. apply key4_eqb_eq.
  - split; [assumption|]. intros r Hin. apply H2. apply in_map. assumption.
Qed.

(** X17.  When [build_model] returns, the run hands exactly that one
    formulation to the solver.  If the run returns, its status string is
    the solver's, a result object comes with it exactly when the status is
    Optimal, and the objective reported is [pulp.value] of the
    formulation's objective under the solved values. *)
Theorem one_solve_and_its_status nodes demand lanes products sd ss cp shut
  mdl var :
  build_model nodes demand lanes products sd ss cp shut = Ok (mdl, var) ->
  solver_calls (solve_and_extract nodes demand lanes products sd ss cp shut)
  = [mdl] /\
  (forall status r,
     outcome (solve_and_extract nodes demand lanes products sd ss cp shut)
     = Ok (status, r) ->
     status = LpStatus (fst (cbc_solve mdl)) /\
     (r = None <-> status <> "Optimal"%string) /\
     (forall res, r = Some res ->
        res_objective res
        = pulp_value (objective mdl) (snd (cbc_solve mdl)))).
Proof.
  intros Hbm. unfold solve_and_extract. rewrite Hbm.
  destruct (cbc_solve mdl) as [code sol]. simpl.
  destruct (String.eqb (LpStatus code) "Optimal") eqn:Es; simpl.
  - apply String.eqb_eq in Es. split; [reflexivity|]. intros status r H.
    apply bind_ok in H as (od & _ & H). injection H as <- <-.
    split; [symmetry; assumption|]. split.
    + split; [discriminate | congruence].
    + intros res E. injection E as <-. reflexivity.
  - apply String.eqb_neq in Es. split; [reflexivity|]. intros status r H.
    injection H as <- <-. split; [reflexivity|]. split.
    + tauto.
    + discriminate.
Qed.

End Result.

(** ** The rows of the enriched lane table *)

Lemma mapM_is_ok_forall {A B : Type} (f : A -> result B) (l : list A) :
  is_ok (mapM f l) = true <-> forall x, In x l -> is_ok (f x) = true.
Proof.
  induction l as [|a l IH]; simpl; [intuition|].
  destruct (f a) as [y|e] eqn:Ef.
  - destruct (mapM f l) as [ys|e]; simpl in *.
    + split; [|reflexivity]. intros _ x [<-|Hx];
        [rewrite Ef; reflexivity | apply IH; auto].
    + split; [discriminate|]. intros H. apply IH. auto.
  - simpl. split; [discriminate|]. intros H.
    specialize (H a (or_introl eq_refl)). rewrite Ef in H. discriminate.
Qed.

Lemma merge_coords_In (nodes : Nodes) (k : string) (c : float * float) :
  In c (merge_coords nodes k) <->
  exists n, In n (node_rows nodes) /\ NodeID n = k /\
            c = (Latitude n, Longitude n).
Proof.
  unfold merge_coords. rewrite in_map_iff. split.
  - intros (n & <- & Hn). apply filter_In in Hn as [Hn E].
    apply String.eqb_eq in E. eauto.
  - intros (n & Hn & E & ->). exists n. split; [reflexivity|].
    apply filter_In. split; [assumption | apply String.eqb_eq; assumption].
Qed.

Lemma merged_rows_In (nodes : Nodes) (l l' : Lane) (c1 c2 : float * float) :
  In ((l', c1), c2) (merged_rows nodes l) <->
  l' = l /\ In c1 (merge_coords nodes (FromNode l)) /\
  In c2 (merge_coords nodes (ToNode l)).
Proof.
  unfold merged_rows. rewrite in_flat_map. split.
  - intros ([l0 c0] & H1 & H2). apply in_map_iff in H1 as (c & E & Hc).
    injection E as <- <-. apply in_map_iff in H2 as (c' & E & Hc').
    injection E as <- <- E. simpl in Hc'. subst c'. auto.
  - intros (-> & H1 & H2). exists (l, c1). split.
    + apply in_map_iff. eauto.
    + simpl. apply in_map_iff. eauto.
Qed.

Section EnrichedRows.
Context {ext : External}.

(** X18.  Every row of the enriched lane table is a raw lane with its
    attributes unchanged, carries the coordinates of a node row labelled
    with its origin and of a node row labelled with its destination, and
    has Dist_mi equal to [haversine] of those coordinates times the road
    factor; the table keeps the optional columns of the raw table. *)
Theorem enriched_row_attributes (nodes : Nodes) (lanes : Lanes)
  (pl : PreppedLanes) (r : PreppedLane) :
  _prep_lanes nodes lanes = Ok pl -> In r (prepped_rows pl) ->
  In (lane r) (lane_rows lanes) /\
  (exists n, In n (node_rows nodes) /\ NodeID n = FromNode (lane r) /\
             fr_lat r = Latitude n /\ fr_lon r = Longitude n) /\
  (exists n, In n (node_rows nodes) /\ NodeID n = ToNode (lane r) /\
             to_lat r = Latitude n /\ to_lon r = Longitude n) /\
  (exists h, Utils.haversine (fr_lon r) (fr_lat r) (to_lon r) (to_lat r) = Ok h /\
             Dist_mi r = (h * Utils.ROAD_FACTOR)%float) /\
  prepped_columns pl = lane_columns lanes.
Proof.
  intros H Hr. rewrite _prep_lanes_unfold in H.
  apply bind_ok in H as (rows & Hm & H). injection H as <-. simpl in *.
  destruct (mapM_ok_in _ _ _ Hm _ Hr) as ([[l [flat flon]] [tlat tlon]] & Hx & Hf).
  apply bind_ok in Hf as (h & Hh & Hf). injection Hf as <-. simpl.
  apply in_flat_map in Hx as (l0 & Hl0 & Hx).
  apply merged_rows_In in Hx as (-> & H1 & H2).
  apply merge_coords_In in H1 as (n1 & Hn1 & E1 & Ec1).
  apply merge_coords_In in H2 as (n2 & Hn2 & E2 & Ec2).
  injection Ec1 as -> ->. injection Ec2 as -> ->.
  repeat split; eauto 10.
Qed.

(** X19.  Lane preprocessing raises only through [haversine]: it returns
    a table exactly when [haversine] returns for every raw lane and every
    pair of node rows labelled with the lane's origin and destination.  In
    particular it returns on an empty lane table. *)
Theorem _prep_lanes_returns_iff (nodes : Nodes) (lanes : Lanes) :
  is_ok (_prep_lanes nodes lanes) = true <->
  (forall l n1 n2,
     In l (lane_rows lanes) ->
     In n1 (node_rows nodes) -> NodeID n1 = FromNode l ->
     In n2 (node_rows nodes) -> NodeID n2 = ToNode l ->
     is_ok (Utils.haversine (Longitude n1) (Latitude n1)
              (Longitude n2) (Latitude n2)) = true).
Proof.
  rewrite _prep_lanes_unfold.
  match goal with
  | |- is_ok (Py.bind (mapM ?f ?l) _) = true <-> _ =>
      assert (E : is_ok (Py.bind (mapM f l)
                           (fun rows => Ok (mkPreppedLanes rows (lane_columns lanes))))
                  = is_ok (mapM f l)) by (destruct (mapM f l); reflexivity);
      rewrite E; clear E; rewrite (mapM_is_ok_forall f l)
  end.
  split.
  - intros H l n1 n2 Hl Hn1 E1 Hn2 E2.
    specialize (H ((l, (Latitude n1, Longitude n1)), (Latitude n2, Longitude n2))).
    simpl in H.
    destruct (Utils.haversine (Longitude n1) (Latitude n1)
                (Longitude n2) (Latitude n2)); [reflexivity|].
    apply H. apply in_flat_map. exists l. split; [assumption|].
    apply merged_rows_In. split; [reflexivity|].
    split; apply merge_coords_In; eauto.
  - intros H [[l [flat flon]] [tlat tlon]] Hx.
    apply in_flat_map in Hx as (l0 & Hl0 & Hx).
    apply merged_rows_In in Hx as (-> & H1 & H2).
    apply merge_coords_In in H1 as (n1 & Hn1 & E1 & Ec1).
    apply merge_coords_In in H2 as (n2 & Hn2 & E2 & Ec2).
    injection Ec1 as -> ->. injection Ec2 as -> ->.
    specialize (H l0 n1 n2 Hl0 Hn1 E1 Hn2 E2). simpl.
    destruct (Utils.haversine (Longitude n1) (Latitude n1)
                (Longitude n2) (Latitude n2)); [reflexivity | discriminate].
Qed.

End EnrichedRows.

(** ** Empty demand, and the application *)

Lemma for3_nil_r {A B C : Type} (la : list A) (lb : list B) :
  @for3 A B C la lb [] = [].
Proof.
  unfold for3. induction la as [|a la IH]; simpl in *; [reflexivity|].
  rewrite IH, app_nil_r. clear. induction lb; simpl; auto.
Qed.

Lemma for2_nil_r {A B : Type} (la : list A) : @for2 A B la [] = [].
Proof. unfold for2. induction la; simpl; auto. Qed.

Lemma no_element_nil {A : Type} (l : list A) : (forall x, ~ In x l) -> l = [].
Proof. destruct l as [|a l]; [reflexivity|]. intros H. destruct (H a). simpl; auto. Qed.

Section Application.
Context {ext : External}.

(** X20.  With no demand record there is no period: a returned
    formulation then has no flow, make or inv variable, every term of its
    objective is the fixed cost of a DC on that DC's [open] variable, and
    its constraints are exactly the rows [1*open[n] + 0 == 0] of the
    forced-closed DCs. *)
Theorem empty_demand_formulation nodes lanes products sd ss cp shut mdl var :
  build_model nodes [] lanes products sd ss cp shut = Ok (mdl, var) ->
  flow var = [] /\ make var = [] /\ inv var = [] /\
  (forall c v, In (c, v) (terms (objective mdl)) ->
     exists d, In d (DC nodes) /\ v = Open d /\ node_fixed nodes d = Ok c) /\
  (forall c, In c (constraints mdl) <->
     exists n, In n (shut_set shut) /\ In n (DC nodes) /\
       c = mkConstraint (mkExpr [(1%float, Open n)] 0%float) LpConstraintEQ
             (mkExpr [] 0%float)).
Proof.
  intros Hbm.
  destruct (build_model_ok _ _ _ _ _ _ _ _ _ _ Hbm) as (pl & Hp & Hb).
  destruct (build_body_ok _ _ _ _ _ _ _ _ _ Hb)
    as (obj & c2 & c3 & c4 & c5 & c6 & Ho & H2 & H3 & H4 & H5 & H6 & -> & ->).
  assert (ET : T [] = []) by reflexivity.
  simpl flow. simpl make. simpl inv. simpl objective. simpl constraints.
  unfold flow_keys, make_keys, inv_keys. rewrite ET, !for3_nil_r. simpl.
  repeat (split; [reflexivity|]).
  split.
  - unfold build_objective, prod_cost, wh_hold, trans_cost, duty_cost, carbon in Ho.
    rewrite ET, !for3_nil_r in Ho. simpl in Ho.
    apply bind_ok in Ho as (wf & Hwf & Ho). injection Ho as <-. simpl.
    rewrite !app_nil_r. unfold wh_fixed in Hwf.
    intros c v Hin.
    destruct (mapM_ok_in _ _ _ Hwf _ Hin) as (d & Hd & Hy).
    apply bind_ok in Hy as (v' & Hv & Hy).
    apply bind_ok in Hy as (c' & Hc & Hy). injection Hy as <- <-.
    apply open_at_ok in Hv as [-> Hdc]. exists d. auto.
  - assert (E2 : c2 = []).
    { apply no_element_nil. intros c Hc.
      unfold capacity_constraints in H2. apply bind_ok in H2 as (css & Hcss & H2).
      injection H2 as <-.
      apply (in_concat_mapM _ _ _ c Hcss) in Hc as (n & ys & _ & Hn & Hy).
      unfold capacity_node in Hn. apply bind_ok in Hn as (cap & _ & Hn).
      rewrite ET in Hn.
      destruct cap as [cv|]; [destruct (truthy cv)|]; simpl in Hn;
        injection Hn as <-; destruct Hy. }
    assert (E3 : c3 = []) by (simpl in H3; injection H3 as <-; reflexivity).
    assert (E4 : c4 = []) by (simpl in H4; injection H4 as <-; reflexivity).
    assert (E5 : c5 = []).
    { unfold mass_balance_constraints in H5. rewrite ET in H5.
      unfold enumerate in H5. simpl in H5. rewrite for3_nil_r in H5.
      simpl in H5. injection H5 as <-. reflexivity. }
    assert (E6 : c6 = []).
    { apply no_element_nil. intros c Hc. unfold bom_constraints in H6.
      destruct (has_BOM_Component products); [|injection H6 as <-; destruct Hc].
      apply bind_ok in H6 as (css & Hcss & H6). injection H6 as <-.
      apply (in_concat_mapM _ _ _ c Hcss) in Hc as (row & ys & _ & Hr & Hy).
      unfold bom_product in Hr. rewrite ET, for2_nil_r in Hr.
      destruct (BOM_Component row); [|injection Hr as <-; destruct Hy].
      apply bind_ok in Hr as (ratio & _ & Hr). simpl in Hr.
      injection Hr as <-. destruct Hy. }
    subst c2 c3 c4 c5 c6. rewrite !app_nil_r.
    intros c. rewrite in_flat_map. split.
    + intros (n & Hn & Hin).
      apply shutdown_spec_In in Hin
        as [[Hd ->]|(i & j & p & t & _ & _ & _ & Ht & _)].
      * exists n. repeat split; assumption.
      * rewrite ET in Ht. destruct Ht.
    + intros (n & Hn & Hd & ->). exists n. split; [assumption|].
      apply shutdown_spec_In. left. split; [assumption | reflexivity].
Qed.

(** X21.  What the Optimize button shows.  It runs [solve_and_extract]
    with the default safety stock and no forced-closed set.  When
    [build_model] raises, so does the button, and nothing is handed to the
    solver.  Otherwise the one formulation built is solved; with a status
    other than Optimal the page shows the error message with that status and
    nothing else; with the status Optimal it shows the reported cost, the
    open DCs and the flow table, and raises TypeError when the objective has
    no value. *)
Theorem optimize_button_outcome nodes demand lanes products svc_days carbon :
  (forall e,
     build_model nodes demand lanes products svc_days 0.10 carbon None = Err e ->
     on_optimize nodes demand lanes products svc_days carbon = ([], Err e)) /\
  (forall mdl var,
     build_model nodes demand lanes products svc_days 0.10 carbon None
     = Ok (mdl, var) ->
     fst (on_optimize nodes demand lanes products svc_days carbon) = [mdl] /\
     (LpStatus (fst (cbc_solve mdl)) <> "Optimal"%string ->
      snd (on_optimize nodes demand lanes products svc_days carbon)
      = Ok [StError ("Solver ended with status: "
                     ++ LpStatus (fst (cbc_solve mdl)))%string]) /\
     (LpStatus (fst (cbc_solve mdl)) = "Optimal"%string ->
      snd (on_optimize nodes demand lanes products svc_days carbon)
      = match open_table (snd (cbc_solve mdl)) (open var) with
        | Err e => Err e
        | Ok dcs =>
            match pulp_value (objective mdl) (snd (cbc_solve mdl)) with
            | Some cost =>
                Ok [StSuccess cost;
                    StSubheader "Open DCs"; StWrite dcs;
                    StSubheader "Material flows";
                    StDataframe (flow_table (snd (cbc_solve mdl)) (flow var))]
            | None => Err TypeError
            end
        end)).
Proof.
  unfold on_optimize, solve_and_extract. cbv zeta. split.
  - intros e Hbm. rewrite Hbm. reflexivity.
  - intros mdl var Hbm. rewrite Hbm.
    destruct (cbc_solve mdl) as [code sol]. simpl fst. simpl snd.
    destruct (String.eqb (LpStatus code) "Optimal") eqn:Es; simpl.
    + apply String.eqb_eq in Es. split; [reflexivity|]. split; [congruence|].
      intros _. destruct (open_table sol (open var)) as [dcs|e]; simpl;
        [|reflexivity].
      destruct (pulp_value (objective mdl) sol); reflexivity.
    + rewrite Es. simpl. apply String.eqb_neq in Es. split; [reflexivity|].
      split; [reflexivity | congruence].
Qed.

End Application.

(** ** The further properties on the scenario *)

Lemma variable_dictionaries_witness :
  NoDup (flow (built_vars (demo_built StOptimal 5 1 0 None))) /\
  NoDup (open (built_vars (demo_built StOptimal 5 1 0 None))).
Proof.
  destruct (@variable_dictionaries (demo_ext StOptimal 5 1) (demo_nodes 0)
              demo_demand demo_lanes demo_products 7 0.10 0 None
              (built_model (demo_built StOptimal 5 1 0 None))
              (built_vars (demo_built StOptimal 5 1 0 None)) demo_prepped)
    as ((H1 & _) & (H2 & _) & _); [vm_compute; reflexivity ..|].
  split; assumption.
Defined.

Lemma declared_variables_witness :
  declared (built_vars (demo_built StOptimal 5 1 0 None)) (Open "D1").
Proof.
  apply (proj1 (@formulation_uses_declared_variables (demo_ext StOptimal 5 1)
                  (demo_nodes 0) demo_demand demo_lanes demo_products 7 0.10 0
                  None (built_model (demo_built StOptimal 5 1 0 None))
                  (built_vars (demo_built StOptimal 5 1 0 None))
                  ltac:(vm_compute; reflexivity))).
  vm_compute. auto 10.
Defined.

Lemma demand_constraint_witness :
  In (mkConstraint (lpSum [(1%float, F "D1" "C1" "W" 1)]) LpConstraintGE (num 1000))
     (constraints (built_model (demo_built StOptimal 5 1 0 None))).
Proof.
  exact (proj1 (@demand_constraint_present (demo_ext StOptimal 5 1)
                  (demo_nodes 0) demo_demand demo_lanes demo_products 7 0.10 0
                  None (built_model (demo_built StOptimal 5 1 0 None))
                  (built_vars (demo_built StOptimal 5 1 0 None)) demo_prepped
                  (mkDemand "C1" "W" 1 1000)
                  ltac:(vm_compute; reflexivity) ltac:(vm_compute; reflexivity)
                  ltac:(simpl; auto))).
Defined.

Lemma service_constraint_witness :
  exists ts,
    In (mkConstraint (lpSum ts) LpConstraintLE (num (1000 * 7)%float))
       (constraints (built_model (demo_built StOptimal 5 1 0 None))).
Proof.
  destruct (@service_constraint_present (demo_ext StOptimal 5 1)
              (demo_nodes 0) demo_demand demo_lanes demo_products 7 0.10 0
              None (built_model (demo_built StOptimal 5 1 0 None))
              (built_vars (demo_built StOptimal 5 1 0 None)) demo_prepped
              (mkDemand "C1" "W" 1 1000)
              ltac:(vm_compute; reflexivity) ltac:(vm_compute; reflexivity)
              ltac:(simpl; auto)) as (ts & H & _).
  exists ts. exact H.
Defined.

Lemma capacity_constraint_witness :
  In (mkConstraint (lpSum [(1%float, F "P1" "D1" "W" 1)]) LpConstraintLE (num 100))
     (constraints (built_model (demo_built StOptimal 5 1 100 None))).
Proof.
  exact (@capacity_constraint_present (demo_ext StOptimal 5 1)
           (demo_nodes 100) demo_demand demo_lanes demo_products 7 0.10 0
           None (built_model (demo_built StOptimal 5 1 100 None))
           (built_vars (demo_built StOptimal 5 1 100 None)) demo_prepped
           "D1"%string 100%float 1%Z
           ltac:(vm_compute; reflexivity) ltac:(vm_compute; reflexivity)
           ltac:(vm_compute; auto) ltac:(vm_compute; reflexivity)
           ltac:(vm_compute; reflexivity) ltac:(vm_compute; auto)).
Defined.

Lemma no_capacity_column_witness :
  List.length
    (le_constraints
       (built_model (@build_model (demo_ext StOptimal 5 1) demo_nodes_plain
                       demo_demand demo_lanes demo_products 7 0.10 0 None)))
  = List.length demo_demand.
Proof.
  exact (proj1 (@no_capacity_column_no_capacity_constraint
                  (demo_ext StOptimal 5 1) demo_nodes_plain demo_demand
                  demo_lanes demo_products 7 0.10 0 None
                  (built_model (@build_model (demo_ext StOptimal 5 1)
                                  demo_nodes_plain demo_demand demo_lanes
                                  demo_products 7 0.10 0 None))
                  (built_vars (@build_model (demo_ext StOptimal 5 1)
                                 demo_nodes_plain demo_demand demo_lanes
                                 demo_products 7 0.10 0 None))
                  ltac:(vm_compute; reflexivity) eq_refl)).
Defined.

Lemma bom_constraint_witness :
  In (mkConstraint (lpSum [(2%float, Make "P1" "W" 1)]) LpConstraintGE
                   (Optimization.var (Make "P1" "K" 1)))
     (constraints
        (built_model (@build_model (demo_ext StOptimal 5 1) (demo_nodes 0)
                        demo_demand demo_lanes demo_products_bom 7 0.10 0 None))).
Proof.
  exact (proj1 (@bom_constraint_present (demo_ext StOptimal 5 1) (demo_nodes 0)
                  demo_demand demo_lanes demo_products_bom 7 0.10 0 None
                  (built_model (@build_model (demo_ext StOptimal 5 1)
                                  (demo_nodes 0) demo_demand demo_lanes
                                  demo_products_bom 7 0.10 0 None))
                  (built_vars (@build_model (demo_ext StOptimal 5 1)
                                 (demo_nodes 0) demo_demand demo_lanes
                                 demo_products_bom 7 0.10 0 None))
                  (mkProduct "K" (Some "W"%string) 2) "W"%string "P1"%string 1%Z
                  ltac:(vm_compute; reflexivity) eq_refl
                  ltac:(simpl; auto) eq_refl
                  ltac:(vm_compute; auto) ltac:(vm_compute; auto))).
Defined.

Lemma equality_constraints_witness :
  (exists n, In n (shut_set (Some ["D1"%string])) /\
     ((In n (DC two_dc_nodes) /\
       mass_balance_spec two_dc_nodes demo_demand two_dc_prepped "D2" "W" 0
       = mkConstraint (mkExpr [(1%float, Open n)] 0%float) LpConstraintEQ
           (mkExpr [] 0%float)) \/
      (exists i j p t,
          In (i, j) (lane_index two_dc_prepped) /\ (i = n \/ j = n) /\
          In p (P demo_products) /\ In t (T demo_demand) /\
          mass_balance_spec two_dc_nodes demo_demand two_dc_prepped "D2" "W" 0
          = mkConstraint (mkExpr [(1%float, F i j p t)] 0%float)
              LpConstraintEQ (mkExpr [] 0%float)))) \/
  (exists n p ti,
      In n (DC two_dc_nodes ++ PLT two_dc_nodes) /\ In p (P demo_products) /\
      (ti < List.length (T demo_demand))%nat /\
      mass_balance_spec two_dc_nodes demo_demand two_dc_prepped "D2" "W" 0
      = mass_balance_spec two_dc_nodes demo_demand two_dc_prepped n p ti).
Proof.
  apply (@equality_constraints_classified two_dc_ext two_dc_nodes demo_demand
           two_dc_lanes demo_products 7 0.10 0 (Some ["D1"%string])
           (built_model two_dc_built) (built_vars two_dc_built) two_dc_prepped
           (mass_balance_spec two_dc_nodes demo_demand two_dc_prepped "D2" "W" 0)).
  - vm_compute; reflexivity.
  - vm_compute; reflexivity.
  - vm_compute; auto 20.
  - reflexivity.
Defined.

Lemma unique_lane_keys_witness : NoDup (lane_index demo_prepped).
Proof.
  exact (@built_model_has_unique_lane_keys (demo_ext StOptimal 5 1) (demo_nodes 0)
           demo_demand demo_lanes demo_products 7 0.10 0 None
           (built_model (demo_built StOptimal 5 1 0 None))
           (built_vars (demo_built StOptimal 5 1 0 None)) demo_prepped
           ltac:(vm_compute; reflexivity) ltac:(vm_compute; reflexivity)
           ltac:(discriminate) ltac:(discriminate)).
Defined.

Lemma missing_cost_columns_witness :
  fst (hd (1%float, Open "")
          (filter (fun t => is_open (snd t))
             (terms (objective
                (built_model (@build_model (demo_ext StOptimal 5 1)
                                demo_nodes_plain demo_demand demo_lanes
                                demo_products 7 0.10 0 None))))))
  = 0%float.
Proof.
  apply (proj1 (@missing_cost_columns_are_zero (demo_ext StOptimal 5 1)
                  demo_nodes_plain demo_demand demo_lanes demo_products
                  7 0.10 0 None
                  (built_model (@build_model (demo_ext StOptimal 5 1)
                                  demo_nodes_plain demo_demand demo_lanes
                                  demo_products 7 0.10 0 None))
                  (built_vars (@build_model (demo_ext StOptimal 5 1)
                                 demo_nodes_plain demo_demand demo_lanes
                                 demo_products 7 0.10 0 None))
                  ltac:(vm_compute; reflexivity)) eq_refl _ "D1"%string).
  vm_compute. auto 10.
Defined.

Lemma open_dc_witness :
  In "D1"%string (res_open_dc (run_result (demo_run StOptimal 5 1 0 None))) <->
  In "D1"%string (DC (demo_nodes 0)) /\
  exists x,
    snd (@cbc_solve (demo_ext StOptimal 5 1)
           (built_model (demo_built StOptimal 5 1 0 None))) (Open "D1") = Some x /\
    (0.5 <? x)%float = true.
Proof.
  exact (proj1 (@open_dc_iff_above_half (demo_ext StOptimal 5 1) (demo_nodes 0)
                  demo_demand demo_lanes demo_products 7 0.10 0 None
                  (built_model (demo_built StOptimal 5 1 0 None))
                  (built_vars (demo_built StOptimal 5 1 0 None))
                  "Optimal"%string (run_result (demo_run StOptimal 5 1 0 None))
                  ltac:(vm_compute; reflexivity) ltac:(vm_compute; reflexivity))
               "D1"%string).
Defined.

Lemma open_without_value_witness :
  outcome (@solve_and_extract (demo_ext_no_open 5) (demo_nodes 0) demo_demand
             demo_lanes demo_products 7 0.10 0 None)
  = Err TypeError.
Proof.
  exact (@open_without_value_raises (demo_ext_no_open 5) (demo_nodes 0)
           demo_demand demo_lanes demo_products 7 0.10 0 None
           (built_model (demo_built StOptimal 5 1 0 None))
           (built_vars (demo_built StOptimal 5 1 0 None)) "D1"%string
           ltac:(vm_compute; reflexivity) ltac:(vm_compute; reflexivity)
           ltac:(vm_compute; auto) ltac:(vm_compute; reflexivity)).
Defined.

Lemma flow_table_keys_witness :
  NoDup (map record_key (res_flow (run_result (demo_run StOptimal 5 1 0 None)))).
Proof.
  exact (proj1 (@flow_table_one_record_per_key (demo_ext StOptimal 5 1)
                  (demo_nodes 0) demo_demand demo_lanes demo_products 7 0.10 0
                  None (built_model (demo_built StOptimal 5 1 0 None))
                  (built_vars (demo_built StOptimal 5 1 0 None))
                  "Optimal"%string (run_result (demo_run StOptimal 5 1 0 None))
                  ltac:(vm_compute; reflexivity) ltac:(vm_compute; reflexivity))).
Defined.

Lemma one_solve_witness :
  solver_calls (demo_run StInfeasible 5 1 0 None)
  = [built_model (demo_built StInfeasible 5 1 0 None)].
Proof.
  exact (proj1 (@one_solve_and_its_status (demo_ext StInfeasible 5 1)
                  (demo_nodes 0) demo_demand demo_lanes demo_products 7 0.10 0
                  None (built_model (demo_built StInfeasible 5 1 0 None))
                  (built_vars (demo_built StInfeasible 5 1 0 None))
                  ltac:(vm_compute; reflexivity))).
Defined.

Lemma enriched_row_witness :
  In (lane demo_first_row) (lane_rows demo_lanes).
Proof.
  exact (proj1 (@enriched_row_attributes (demo_ext StOptimal 0 0) (demo_nodes 0)
                  demo_lanes demo_prepped demo_first_row
                  ltac:(vm_compute; reflexivity) ltac:(vm_compute; auto))).
Defined.

Lemma empty_demand_witness :
  flow (built_vars (@build_model (demo_ext StOptimal 5 1) two_dc_nodes []
                      two_dc_lanes demo_products 7 0.10 0 (Some ["D1"%string])))
  = [] /\
  In (mkConstraint (mkExpr [(1%float, Open "D1")] 0%float) LpConstraintEQ
        (mkExpr [] 0%float))
     (constraints
        (built_model (@build_model (demo_ext StOptimal 5 1) two_dc_nodes []
                        two_dc_lanes demo_products 7 0.10 0
                        (Some ["D1"%string])))) /\
  (exists d, In d (DC two_dc_nodes) /\ Open "D2" = Open d /\
             node_fixed two_dc_nodes d = Ok 10%float).
Proof.
  destruct (@empty_demand_formulation (demo_ext StOptimal 5 1) two_dc_nodes
              two_dc_lanes demo_products 7 0.10 0 (Some ["D1"%string])
              (built_model (@build_model (demo_ext StOptimal 5 1) two_dc_nodes
                              [] two_dc_lanes demo_products 7 0.10 0
                              (Some ["D1"%string])))
              (built_vars (@build_model (demo_ext StOptimal 5 1) two_dc_nodes
                             [] two_dc_lanes demo_products 7 0.10 0
                             (Some ["D1"%string])))
              ltac:(vm_compute; reflexivity)) as (H1 & _ & _ & H4 & H5).
  split; [exact H1|]. split.
  - apply H5. exists "D1"%string. vm_compute. auto.
  - apply (H4 10%float (Open "D2")). vm_compute. auto.
Defined.

Lemma optimize_button_witness :
  snd (@on_optimize (demo_ext StInfeasible 5 1) (demo_nodes 0) demo_demand
         demo_lanes demo_products 7 0)
  = Ok [StError "Solver ended with status: Infeasible"] /\
  snd (@on_optimize (demo_ext_with_cost 5 1 42) (demo_nodes 0) demo_demand
         demo_lanes demo_products 7 0)
  = Ok [StSuccess 42; StSubheader "Open DCs"; StWrite ["D1"%string];
        StSubheader "Material flows";
        StDataframe [mkFlowRecord "P1" "D1" "W" 1 5;
                     mkFlowRecord "D1" "C1" "W" 1 5]].
Proof.
  split.
  - destruct (proj2 (@optimize_button_outcome (demo_ext StInfeasible 5 1)
                       (demo_nodes 0) demo_demand demo_lanes demo_products 7 0)
                (built_model (demo_built StInfeasible 5 1 0 None))
                (built_vars (demo_built StInfeasible 5 1 0 None))
                ltac:(vm_compute; reflexivity)) as (_ & H & _).
    rewrite H; [vm_compute; reflexivity | vm_compute; discriminate].
  - destruct (proj2 (@optimize_button_outcome (demo_ext_with_cost 5 1 42)
                       (demo_nodes 0) demo_demand demo_lanes demo_products 7 0)
                (built_model (@build_model (demo_ext_with_cost 5 1 42)
                                (demo_nodes 0) demo_demand demo_lanes
                                demo_products 7 0.10 0 None))
                (built_vars (@build_model (demo_ext_with_cost 5 1 42)
                               (demo_nodes 0) demo_demand demo_lanes
                               demo_products 7 0.10 0 None))
                ltac:(vm_compute; reflexivity)) as (_ & _ & H).
    rewrite H; vm_compute; reflexivity.
Defined.

